(** * The message API of the push-notification server: paging, ownership
      checks and the notify/persist ordering of its handlers.

    The development embeds [package api] (the message handlers) in Rocq.
    Handlers are state-passing programs over a world made of the
    repository behind the [MessageDatabase] interface and a chronological
    log of every repository call, notification and response write.  Go
    panics (nil dereference, index out of range) are an explicit outcome. *)

From Stdlib Require Import ZArith NArith Lia String Ascii DecimalString Sorted.
From stdpp Require Import base option list strings.

Local Open Scope string_scope.
Local Open Scope list_scope.
Local Open Scope Z_scope.

(** ** Go primitives used by the handlers *)

Module Go.

(** Go's [uint]: identifiers are only compared and copied, never computed
    with, so no wrap-around arises on them. *)
Definition uint := N.

(** Go's [int] on a 64-bit platform, kept in [Z] with two's-complement
    wrap-around on arithmetic. *)
Definition int := Z.

Definition int_wrap (z : Z) : int := (z + 2 ^ 63) mod 2 ^ 64 - 2 ^ 63.
Definition int_add (a b : int) : int := int_wrap (a + b).
Definition int_sub (a b : int) : int := int_wrap (a - b).

(** [error] values: only their text matters here. *)
Definition error := string.

(** [len(s)] of a slice. *)
Definition len {A} (s : list A) : int := Z.of_nat (length s).

(** A pure computation that may panic. *)
Inductive Result (A : Type) : Type :=
| Ok (a : A)
| Panic (reason : string).
Arguments Ok {A} a.
Arguments Panic {A} reason.

(** [s[:hi]]: panics when [hi] is outside [0 .. len(s)]. *)
Definition slice_to {A} (s : list A) (hi : int) : Result (list A) :=
  if (hi <? 0) || (len s <? hi)
  then Panic "slice bounds out of range"
  else Ok (take (Z.to_nat hi) s).

(** [s[i]]: panics when [i] is outside [0 .. len(s)-1]. *)
Definition index {A} (s : list A) (i : int) : Result A :=
  if i <? 0 then Panic "index out of range"
  else match s !! Z.to_nat i with
       | Some a => Ok a
       | None => Panic "index out of range"
       end.

(** Strings are byte sequences.  [s[lo:hi]] and [s[i]] on a string, for
    bounds that are in range wherever the code below slices or indexes. *)
Fixpoint str_drop (n : nat) (s : string) : string :=
  match n, s with
  | O, _ => s
  | S n', String _ rest => str_drop n' rest
  | S _, EmptyString => EmptyString
  end.

Fixpoint str_take (n : nat) (s : string) : string :=
  match n, s with
  | O, _ => EmptyString
  | S n', String c rest => String c (str_take n' rest)
  | S _, EmptyString => EmptyString
  end.

Definition str_slice (s : string) (lo hi : int) : string :=
  str_take (Z.to_nat hi - Z.to_nat lo) (str_drop (Z.to_nat lo) s).

Definition str_index (s : string) (i : int) : N :=
  match String.get (Z.to_nat i) s with
  | Some c => N_of_ascii c
  | None => 0%N
  end.

(** [strconv.Itoa] and [strconv.FormatUint(_, 10)]. *)
Definition Itoa (i : int) : string := NilZero.string_of_int (Z.to_int i).
Definition FormatUint (u : uint) : string := NilZero.string_of_uint (N.to_uint u).

End Go.

Import Go.
Bind Scope N_scope with uint.

(** ** [net/url]: the part of the standard library [buildWithPaging] calls *)

Module url.

(** A [url.URL] restricted to the fields the location middleware fills in
    (scheme, host, path) and the raw query the handler writes; user info,
    opaque part, raw path and fragment are empty throughout. *)
Record URL : Type := mkURL {
  Scheme : string;
  Host : string;
  Path : string;
  RawQuery : string }.

(** [url.Values] is a [map[string][]string].  [Encode] walks the keys in
    sorted order, so the map is kept as an association list sorted by key
    with one entry per key. *)
Definition Values := list (string * list string).

Fixpoint Add (v : Values) (key value : string) : Values :=
  match v with
  | [] => [(key, [value])]
  | (k, vs) :: rest =>
      if String.eqb key k then (k, (vs ++ [value])%list) :: rest
      else if String.ltb key k then (key, [value]) :: (k, vs) :: rest
      else (k, vs) :: Add rest key value
  end.

(** [Values.Set], used to state what overwriting a parameter means. *)
Fixpoint Set_ (v : Values) (key value : string) : Values :=
  match v with
  | [] => [(key, [value])]
  | (k, vs) :: rest =>
      if String.eqb key k then (k, [value]) :: rest
      else if String.ltb key k then (key, [value]) :: (k, vs) :: rest
      else (k, vs) :: Set_ rest key value
  end.

Inductive encoding := encodePath | encodeHost | encodeQueryComponent.

Definition between (lo c hi : ascii) : bool :=
  (N_of_ascii lo <=? N_of_ascii c)%N && (N_of_ascii c <=? N_of_ascii hi)%N.

Definition one_of (c : ascii) (s : string) : bool :=
  existsb (Ascii.eqb c) (list_ascii_of_string s).

(** [shouldEscape(c, mode)] for the three modes in use. *)
Definition shouldEscape (c : ascii) (mode : encoding) : bool :=
  if between "a" c "z" || between "A" c "Z" || between "0" c "9" then false
  else if match mode with
          | encodeHost => one_of c "!$&'()*+,;=:[]<>" || Ascii.eqb c (ascii_of_N 34)
          | _ => false
          end then false
  else if one_of c "-_.~" then false
  else if one_of c "$&+,/:;=?@" then
    match mode with
    | encodePath => Ascii.eqb c "?"
    | encodeQueryComponent => true
    | encodeHost => true
    end
  else true.

Definition upperhex (n : N) : ascii :=
  nth (N.to_nat n) (list_ascii_of_string "0123456789ABCDEF") "0"%char.

Fixpoint escape (s : string) (mode : encoding) : string :=
  match s with
  | EmptyString => EmptyString
  | String c rest =>
      if shouldEscape c mode then
        if Ascii.eqb c " " && match mode with encodeQueryComponent => true | _ => false end
        then String "+" (escape rest mode)
        else String "%" (String (upperhex (N_of_ascii c / 16))
               (String (upperhex (N_of_ascii c mod 16)) (escape rest mode)))
      else String c (escape rest mode)
  end.

Definition QueryEscape (s : string) : string := escape s encodeQueryComponent.

Definition unhex (c : ascii) : option N :=
  if between "0" c "9" then Some (N_of_ascii c - N_of_ascii "0")%N
  else if between "a" c "f" then Some (N_of_ascii c - N_of_ascii "a" + 10)%N
  else if between "A" c "F" then Some (N_of_ascii c - N_of_ascii "A" + 10)%N
  else None.

(** [QueryUnescape]: [None] stands for the [EscapeError]. *)
Fixpoint QueryUnescape (s : string) : option string :=
  match s with
  | EmptyString => Some EmptyString
  | String "%" (String a (String b rest)) =>
      match unhex a, unhex b, QueryUnescape rest with
      | Some x, Some y, Some r => Some (String (ascii_of_N (x * 16 + y)) r)
      | _, _, _ => None
      end
  | String "%" _ => None
  | String "+" rest => String " " <$> QueryUnescape rest
  | String c rest => String c <$> QueryUnescape rest
  end.

(** [strings.Cut(s, sep)] for a one-byte separator. *)
Fixpoint Cut (s : string) (sep : ascii) : string * string * bool :=
  match s with
  | EmptyString => (EmptyString, EmptyString, false)
  | String c rest =>
      if Ascii.eqb c sep then (EmptyString, rest, true)
      else let '(before, after, found) := Cut rest sep in
           (String c before, after, found)
  end.

(** The segments of a raw query between ["&"] separators, in order. *)
Fixpoint segments (s : string) (cur : string) : list string :=
  match s with
  | EmptyString => [cur]
  | String c rest =>
      if Ascii.eqb c "&" then cur :: segments rest EmptyString
      else segments rest (cur +:+ String c EmptyString)
  end.

(** One round of the loop of [parseQuery]: a segment with a semicolon, an
    empty segment, or one whose key or value does not unescape, is
    skipped. *)
Definition parsePair (m : Values) (seg : string) : Values :=
  if one_of ";" seg then m
  else if String.eqb seg "" then m
  else let '(key, value, _) := Cut seg "=" in
       match QueryUnescape key with
       | None => m
       | Some key1 =>
           match QueryUnescape value with
           | None => m
           | Some value1 => Add m key1 value1
           end
       end.

Definition ParseQuery (query : string) : Values :=
  fold_left parsePair (segments query EmptyString) [].

(** [URL.Query]: the parse error is dropped. *)
Definition Query (u : URL) : Values := ParseQuery (RawQuery u).

Definition encodePairs (kv : string * list string) : list string :=
  map (fun v => QueryEscape (fst kv) +:+ "=" +:+ QueryEscape v) (snd kv).

(** [Values.Encode]: ["k=v"] pairs in key order, joined by ["&"]. *)
Definition Encode (v : Values) : string :=
  String.concat "&" (concat (map encodePairs v)).

(** [URL.EscapedPath] with an empty raw path. *)
Definition EscapedPath (u : URL) : string :=
  if String.eqb (Path u) "*" then "*" else escape (Path u) encodePath.

Definition starts_with_slash (s : string) : bool :=
  match s with String "/" _ => true | _ => false end.

(** [URL.String] with no opaque part, user info or fragment. *)
Definition String_ (u : URL) : string :=
  let scheme := if String.eqb (Scheme u) "" then "" else Scheme u +:+ ":" in
  let authority :=
    if negb (String.eqb (Scheme u) "") || negb (String.eqb (Host u) "") then
      (if negb (String.eqb (Host u) "") || negb (String.eqb (Path u) "")
       then "//" else "")
      +:+ (if String.eqb (Host u) "" then "" else escape (Host u) encodeHost)
    else "" in
  let path := EscapedPath u in
  let slash :=
    if negb (String.eqb path "") && negb (starts_with_slash path)
       && negb (String.eqb (Host u) "") then "/" else "" in
  let dot :=
    if String.eqb (scheme +:+ authority +:+ slash) ""
       && one_of ":" (fst (fst (Cut path "/"))) then "./" else "" in
  let query := if String.eqb (RawQuery u) "" then "" else "?" +:+ RawQuery u in
  scheme +:+ authority +:+ slash +:+ dot +:+ path +:+ query.

End url.


(** ** [unicode/utf8], [unicode] and [strings]: what [strings.TrimSpace] runs

    A Go string is a sequence of bytes; [string] is exactly that.  Runes are
    decoded as the standard library does, an invalid byte giving
    [RuneError] of width 1. *)

Module utf8.

Definition rune := N.
Definition RuneError : rune := 0xFFFD%N.
Definition RuneSelf : N := 0x80%N.
Definition UTFMax : Z := 4.

(** The table [first] with [acceptRanges] inlined: an ASCII byte, an
    invalid leading byte, or the size of the sequence and the range the
    second byte must lie in. *)
Inductive firstInfo : Type :=
| as_
| xx
| lead (size : nat) (lo hi : N).

Definition first (b : N) : firstInfo :=
  (if b <? 0x80 then as_
   else if b <? 0xC2 then xx
   else if b <? 0xE0 then lead 2 0x80 0xBF
   else if b =? 0xE0 then lead 3 0xA0 0xBF
   else if b <? 0xED then lead 3 0x80 0xBF
   else if b =? 0xED then lead 3 0x80 0x9F
   else if b <? 0xF0 then lead 3 0x80 0xBF
   else if b =? 0xF0 then lead 4 0x90 0xBF
   else if b <? 0xF4 then lead 4 0x80 0xBF
   else if b =? 0xF4 then lead 4 0x80 0x8F
   else xx)%N.

Definition cont (b : N) : bool := (b <? 0x80)%N || (0xBF <? b)%N.

Definition DecodeRuneInString (s : string) : rune * nat :=
  match s with
  | EmptyString => (RuneError, 0%nat)
  | String c0 rest =>
      let s0 := N_of_ascii c0 in
      match first s0 with
      | as_ => (s0, 1%nat)
      | xx => (RuneError, 1%nat)
      | lead sz lo hi =>
          if (String.length s <? sz)%nat then (RuneError, 1%nat)
          else match rest with
          | EmptyString => (RuneError, 1%nat)
          | String c1 rest1 =>
              let s1 := N_of_ascii c1 in
              if ((s1 <? lo) || (hi <? s1))%N then (RuneError, 1%nat)
              else if (sz <=? 2)%nat then
                (N.lor (N.shiftl (N.land s0 0x1F) 6) (N.land s1 0x3F), 2%nat)
              else match rest1 with
              | EmptyString => (RuneError, 1%nat)
              | String c2 rest2 =>
                  let s2 := N_of_ascii c2 in
                  if cont s2 then (RuneError, 1%nat)
                  else if (sz <=? 3)%nat then
                    (N.lor (N.lor (N.shiftl (N.land s0 0x0F) 12)
                                  (N.shiftl (N.land s1 0x3F) 6))
                           (N.land s2 0x3F), 3%nat)
                  else match rest2 with
                  | EmptyString => (RuneError, 1%nat)
                  | String c3 _ =>
                      let s3 := N_of_ascii c3 in
                      if cont s3 then (RuneError, 1%nat)
                      else
                        (N.lor (N.lor (N.lor (N.shiftl (N.land s0 0x07) 18)
                                             (N.shiftl (N.land s1 0x3F) 12))
                                      (N.shiftl (N.land s2 0x3F) 6))
                               (N.land s3 0x3F), 4%nat)
                  end
              end
          end
      end
  end.

Definition RuneStart (b : N) : bool := negb (N.land b 0xC0 =? 0x80)%N.

(** The backward scan of [DecodeLastRuneInString]: at most [UTFMax]
    rounds, stopping below [lim] or on a byte that starts a rune. *)
Fixpoint scan_back (s : string) (lim start : Z) (rounds : nat) : Z :=
  match rounds with
  | O => start
  | S rounds' =>
      if start <? lim then start
      else if RuneStart (str_index s start) then start
      else scan_back s lim (start - 1) rounds'
  end.

Definition DecodeLastRuneInString (s : string) : rune * nat :=
  let end_ := Z.of_nat (String.length s) in
  if end_ =? 0 then (RuneError, 0%nat)
  else
    let start := end_ - 1 in
    let r := str_index s start in
    if (r <? RuneSelf)%N then (r, 1%nat)
    else
      let lim := if end_ - UTFMax <? 0 then 0 else end_ - UTFMax in
      let start := scan_back s lim (start - 1) 4 in
      let start := if start <? 0 then 0 else start in
      let '(r, size) := DecodeRuneInString (str_slice s start end_) in
      if start + Z.of_nat size =? end_ then (r, size) else (RuneError, 1%nat).

End utf8.

Module unicode.

(** [unicode.IsSpace]: the Latin-1 cases, then the [White_Space] table. *)
Definition IsSpace (r : utf8.rune) : bool :=
  (if r <=? 0xFF then
     (r =? 0x09) || (r =? 0x0A) || (r =? 0x0B) || (r =? 0x0C) || (r =? 0x0D)
     || (r =? 0x20) || (r =? 0x85) || (r =? 0xA0)
   else
     (r =? 0x1680) || ((0x2000 <=? r) && (r <=? 0x200A))
     || (r =? 0x2028) || (r =? 0x2029) || (r =? 0x202F) || (r =? 0x205F)
     || (r =? 0x3000))%N.

End unicode.

Module strings.

(** The loop [for i, r := range s] of [indexFunc], started at byte offset
    [i]; [rounds] bounds the number of runes by the number of bytes. *)
Fixpoint indexFunc_loop (rounds : nat) (s : string) (i : Z)
         (f : utf8.rune -> bool) (truth : bool) : Z :=
  match rounds with
  | O => -1
  | S rounds' =>
      match s with
      | EmptyString => -1
      | String _ _ =>
          let '(r, size) := utf8.DecodeRuneInString s in
          if Bool.eqb (f r) truth then i
          else indexFunc_loop rounds' (str_drop size s) (i + Z.of_nat size) f truth
      end
  end.

Definition indexFunc (s : string) (f : utf8.rune -> bool) (truth : bool) : Z :=
  indexFunc_loop (String.length s) s 0 f truth.

(** The loop [for i := len(s); i > 0; ] of [lastIndexFunc]. *)
Fixpoint lastIndexFunc_loop (rounds : nat) (s : string) (i : Z)
         (f : utf8.rune -> bool) (truth : bool) : Z :=
  match rounds with
  | O => -1
  | S rounds' =>
      if i >? 0 then
        let '(r, size) := utf8.DecodeLastRuneInString (str_slice s 0 i) in
        let i := i - Z.of_nat size in
        if Bool.eqb (f r) truth then i
        else lastIndexFunc_loop rounds' s i f truth
      else -1
  end.

Definition lastIndexFunc (s : string) (f : utf8.rune -> bool) (truth : bool) : Z :=
  lastIndexFunc_loop (String.length s) s (Z.of_nat (String.length s)) f truth.

Definition TrimLeftFunc (s : string) (f : utf8.rune -> bool) : string :=
  let i := indexFunc s f false in
  if i =? -1 then "" else str_slice s i (Z.of_nat (String.length s)).

Definition TrimRightFunc (s : string) (f : utf8.rune -> bool) : string :=
  let i := lastIndexFunc s f false in
  let i :=
    if (0 <=? i) && (utf8.RuneSelf <=? str_index s i)%N then
      i + Z.of_nat (snd (utf8.DecodeRuneInString (str_slice s i (Z.of_nat (String.length s)))))
    else i + 1 in
  str_slice s 0 i.

Definition TrimFunc (s : string) (f : utf8.rune -> bool) : string :=
  TrimRightFunc (TrimLeftFunc s f) f.

(** [strings.TrimSpace]: leading and trailing white space, as defined by
    Unicode, removed.  The standard library first scans ASCII bytes on a
    fast path and falls back to [TrimFunc]; the result is that of
    [TrimFunc] throughout. *)
Definition TrimSpace (s : string) : string := TrimFunc s unicode.IsSpace.

(** The runes of [s] in the order [for _, r := range s] yields them. *)
Fixpoint runes_loop (rounds : nat) (s : string) : list utf8.rune :=
  match rounds with
  | O => []
  | S rounds' =>
      match s with
      | EmptyString => []
      | String _ _ =>
          let '(r, size) := utf8.DecodeRuneInString s in
          r :: runes_loop rounds' (str_drop size s)
      end
  end.

Definition runes (s : string) : list utf8.rune := runes_loop (String.length s) s.

End strings.

(** ** [package model] *)

Module model.

(** Modelled from the spec: [model.Message] is not part of the sources at
    hand.  [ID], [ApplicationID] and [Title] are the fields the handlers
    read and write; the others are those of the data model (body,
    priority, extras, creation time). *)
Module Message.
Record t : Type := mk {
  ID : uint;
  ApplicationID : uint;
  Message : string;
  Title : string;
  Priority : int;
  Extras : list (string * string);
  Date : int }.
Definition with_Title (title : string) (m : t) : t :=
  mk (ID m) (ApplicationID m) (Message m) title (Priority m) (Extras m) (Date m).
End Message.

(** Modelled from the spec: [model.MessageExternal], the external view of
    a message, with the same data. *)
Module MessageExternal.
Record t : Type := mk {
  ID : uint;
  ApplicationID : uint;
  Message : string;
  Title : string;
  Priority : int;
  Extras : list (string * string);
  Date : int }.
End MessageExternal.

(** Modelled from the spec: [model.ApplicationMessage], the body of a
    creation request (message body, title, priority, extras). *)
Module ApplicationMessage.
Record t : Type := mk {
  Message : string;
  Title : string;
  Priority : int;
  Extras : list (string * string) }.
End ApplicationMessage.

(** Modelled from the spec: [model.Application] with its identity, token,
    owning user and display name. *)
Module Application.
Record t : Type := mk {
  ID : uint;
  Token : string;
  UserID : uint;
  Name : string }.
End Application.

(** Modelled from the spec: [ApplicationMessage.ToInternal(appID)] builds
    the message to store from the request body, owned by [appID]; its
    identity and date are still unset. *)
Definition ToInternal (am : ApplicationMessage.t) (appID : uint) : Message.t :=
  Message.mk 0%N appID (ApplicationMessage.Message am) (ApplicationMessage.Title am)
    (ApplicationMessage.Priority am) (ApplicationMessage.Extras am) 0.

(** Modelled from the spec: [Message.ToExternal()] is the external view of
    a stored message. *)
Definition ToExternal (m : Message.t) : MessageExternal.t :=
  MessageExternal.mk (Message.ID m) (Message.ApplicationID m) (Message.Message m)
    (Message.Title m) (Message.Priority m) (Message.Extras m) (Message.Date m).

(** Modelled from the spec: [model.Paging], [model.PagedMessages] and
    [model.MessageDeletions] are declared outside the sources at hand; the
    fields are those the handlers fill in. *)
Module Paging.
Record t : Type := mk {
  Size : int;
  Limit : int;
  Next : string;
  Since : uint }.
End Paging.

(** [Messages] is a slice of pointers: [None] is a nil entry. *)
Module PagedMessages.
Record t : Type := mk {
  Paging : Paging.t;
  Messages : list (option MessageExternal.t) }.
End PagedMessages.

Module MessageDeletions.
Record t : Type := mk {
  Messages : list Message.t }.
End MessageDeletions.

(** Modelled from the spec: [model.Event], the interface of what a
    listener is sent, as a tagged variant: a created message or the
    messages of one deletion. *)
Inductive Event : Type :=
| OfMessage (m : Message.t)
| OfMessageDeletions (d : MessageDeletions.t).

End model.

(** ** The world the handlers run in *)

(** What a handler writes as its response. *)
Inductive Payload : Type :=
| PagedPayload (p : model.PagedMessages.t)
| MessagePayload (m : model.MessageExternal.t).

Inductive Response : Type :=
| JSON (code : int) (obj : Payload)
| AbortWithError (code : int) (err : error).

(** The calls of the [MessageDatabase] interface and what they give back;
    a nil pointer is [None], a nil error is [None]. *)
Inductive Call : Type :=
| GetMessagesByApplication (appID : uint)
| GetMessagesByApplicationSince (appID : uint) (limit : int) (since : uint)
| GetApplicationByID (id : uint)
| GetMessagesByUser (userID : uint)
| GetMessagesByUserSince (userID : uint) (limit : int) (since : uint)
| DeleteMessageByID (id : uint)
| GetMessageByID (id : uint)
| DeleteMessagesByUser (userID : uint)
| DeleteMessagesByApplication (applicationID : uint)
| CreateMessage (message : model.Message.t)
| GetApplicationByToken (token : string).

Inductive Reply : Type :=
| Rows (messages : list model.Message.t) (err : option error)
| App (app : option model.Application.t) (err : option error)
| Row (msg : option model.Message.t) (err : option error)
| Done (err : option error)
| Stored (message : model.Message.t) (err : option error).

(** One entry of the chronological log of a run. *)
Inductive Effect : Type :=
| Called (c : Call) (r : Reply)
| Notified (userID : uint) (event : model.Event)
| Responded (r : Response).

(** The [MessageDatabase] interface over a repository state [DB].  Every
    call may change the state and may fail.  [CreateMessage] receives a
    pointer: it gives back the message as the call leaves it. *)
Module DB.
Class MessageDatabase (DB : Type) : Type := {
  GetMessagesByApplication : uint -> DB -> list model.Message.t * option error * DB;
  GetMessagesByApplicationSince :
    uint -> int -> uint -> DB -> list model.Message.t * option error * DB;
  GetApplicationByID : uint -> DB -> option model.Application.t * option error * DB;
  GetMessagesByUser : uint -> DB -> list model.Message.t * option error * DB;
  GetMessagesByUserSince :
    uint -> int -> uint -> DB -> list model.Message.t * option error * DB;
  DeleteMessageByID : uint -> DB -> option error * DB;
  GetMessageByID : uint -> DB -> option model.Message.t * option error * DB;
  DeleteMessagesByUser : uint -> DB -> option error * DB;
  DeleteMessagesByApplication : uint -> DB -> option error * DB;
  CreateMessage : model.Message.t -> DB -> model.Message.t * option error * DB;
  GetApplicationByToken : string -> DB -> option model.Application.t * option error * DB }.
End DB.

Record World (D : Type) : Type := mkWorld {
  db : D;
  log : list Effect }.
Arguments mkWorld {D} db log.
Arguments db {D} w.
Arguments log {D} w.

Inductive Outcome (D A : Type) : Type :=
| Returned (a : A) (w : World D)
| Panicked (reason : string) (w : World D).
Arguments Returned {D A} a w.
Arguments Panicked {D A} reason w.

(** Handlers: state passing over the world, with panics. *)
Definition M (D A : Type) : Type := World D -> Outcome D A.

Definition ret {D A} (a : A) : M D A := fun w => Returned a w.

Definition bind {D A B} (m : M D A) (k : A -> M D B) : M D B :=
  fun w => match m w with
           | Returned a w' => k a w'
           | Panicked reason w' => Panicked reason w'
           end.

Declare Scope handler_scope.
Delimit Scope handler_scope with handler.
Notation "x <- m ;; k" := (bind m (fun x => k))
  (at level 100, m at next level, right associativity) : handler_scope.
Notation "m ;;; k" := (bind m (fun _ => k))
  (at level 100, right associativity) : handler_scope.

Definition emit {D} (e : Effect) : M D unit :=
  fun w => Returned tt (mkWorld (db w) (log w ++ [e])).

Definition lift {D A} (r : Result A) : M D A :=
  fun w => match r with
           | Ok a => Returned a w
           | Panic reason => Panicked reason w
           end.

Definition world_of {D A} (o : Outcome D A) : World D :=
  match o with
  | Returned _ w => w
  | Panicked _ w => w
  end.

Definition panicked {D A} (o : Outcome D A) : bool :=
  match o with
  | Returned _ _ => false
  | Panicked _ _ => true
  end.


(** ** [package api]: the handlers *)

(** What a handler reads from the [gin.Context] of a request.  The
    authentication, location and binding layers are outside the package,
    so the context carries what they hand over. *)
Record Context : Type := mkContext {
  (** Modelled from the spec: [auth.GetUserID(ctx)], the acting user the
      authentication layer resolved *)
  UserID : uint;
  (** Modelled from the spec: [auth.GetTokenID(ctx)], the token the request
      was authenticated with *)
  TokenID : string;
  (** [location.Get(ctx)]: the URL the location middleware stored *)
  Location : url.URL;
  (** [ctx.Request.URL] *)
  Request_URL : url.URL;
  (** the path parameter ["id"] read as an unsigned number, [None] when it
      is not one *)
  Param_id : option uint;
  (** the query parameters [limit] and [since] as the form binding reads
      them, each absent or present; [None] when one does not parse *)
  Query_form : option (option int * option uint);
  (** the request body as [ctx.Bind] decodes it, [None] when malformed *)
  Body : option model.ApplicationMessage.t }.

Record pagingParams : Type := mkPagingParams {
  Limit : int;
  Since : uint }.

Section api.

Context {D : Type} `{!DB.MessageDatabase D}.

(** A call of [a.DB], recorded in the log with its reply. *)
Definition call {A} (c : Call) (run : D -> A * D) (reply : A -> Reply) : M D A :=
  fun w => let '(a, d') := run (db w) in
           Returned a (mkWorld d' (log w ++ [Called c (reply a)])).

Definition db_GetMessagesByApplication (appID : uint) :=
  call (GetMessagesByApplication appID) (DB.GetMessagesByApplication appID)
       (fun r => Rows r.1 r.2).
Definition db_GetMessagesByApplicationSince (appID : uint) (limit : int) (since : uint) :=
  call (GetMessagesByApplicationSince appID limit since)
       (DB.GetMessagesByApplicationSince appID limit since) (fun r => Rows r.1 r.2).
Definition db_GetApplicationByID (id : uint) :=
  call (GetApplicationByID id) (DB.GetApplicationByID id) (fun r => App r.1 r.2).
Definition db_GetMessagesByUser (userID : uint) :=
  call (GetMessagesByUser userID) (DB.GetMessagesByUser userID) (fun r => Rows r.1 r.2).
Definition db_GetMessagesByUserSince (userID : uint) (limit : int) (since : uint) :=
  call (GetMessagesByUserSince userID limit since)
       (DB.GetMessagesByUserSince userID limit since) (fun r => Rows r.1 r.2).
Definition db_DeleteMessageByID (id : uint) :=
  call (DeleteMessageByID id) (DB.DeleteMessageByID id) Done.
Definition db_GetMessageByID (id : uint) :=
  call (GetMessageByID id) (DB.GetMessageByID id) (fun r => Row r.1 r.2).
Definition db_DeleteMessagesByUser (userID : uint) :=
  call (DeleteMessagesByUser userID) (DB.DeleteMessagesByUser userID) Done.
Definition db_DeleteMessagesByApplication (applicationID : uint) :=
  call (DeleteMessagesByApplication applicationID)
       (DB.DeleteMessagesByApplication applicationID) Done.
Definition db_CreateMessage (message : model.Message.t) :=
  call (CreateMessage message) (DB.CreateMessage message) (fun r => Stored r.1 r.2).
Definition db_GetApplicationByToken (token : string) :=
  call (GetApplicationByToken token) (DB.GetApplicationByToken token)
       (fun r => App r.1 r.2).

(** [a.Notifier.Notify(userID, event)]: returns nothing, cannot fail. *)
Definition Notify (userID : uint) (event : model.Event) : M D unit :=
  emit (Notified userID event).

Definition ctx_JSON (code : int) (obj : Payload) : M D unit :=
  emit (Responded (JSON code obj)).

Definition ctx_AbortWithError (code : int) (err : error) : M D unit :=
  emit (Responded (AbortWithError code err)).

(** Modelled from the spec: [successOrAbort] is defined elsewhere in the
    package.  A storage failure is surfaced as an error response with the
    given code and aborts the operation; the result tells whether there
    was no error. *)
Definition successOrAbort (code : int) (err : option error) : M D bool :=
  match err with
  | Some e => (ctx_AbortWithError code e ;;; ret false)%handler
  | None => ret true
  end.

(** Modelled from the spec: [withID] is defined elsewhere in the package.
    A path parameter that is not an identifier is a malformed request. *)
Definition withID (ctx : Context) (f : uint -> M D unit) : M D unit :=
  match Param_id ctx with
  | Some id => f id
  | None => ctx_AbortWithError 400 "invalid id"
  end.

(** [binding:"min=1,max=200"] on [Limit]; [min=0] on the unsigned [Since]
    always holds. *)
Definition valid_paging (p : pagingParams) : bool :=
  (1 <=? Limit p) && (Limit p <=? 200).

(** [ctx.MustBindWith(params, binding.Query)]: fills the fields that are
    present, validates, and aborts with 400 on an error.  [params] is a
    pointer: the parameters as the call leaves them are given back. *)
Definition MustBindWith_Query (ctx : Context) (params : pagingParams)
  : M D (pagingParams * option error) :=
  match Query_form ctx with
  | None =>
      (ctx_AbortWithError 400 "bind error" ;;; ret (params, Some "bind error"))%handler
  | Some (limit, since) =>
      let params' := mkPagingParams (default (Limit params) limit)
                                    (default (Since params) since) in
      if valid_paging params' then ret (params', None)
      else (ctx_AbortWithError 400 "validation error" ;;;
            ret (params', Some "validation error"))%handler
  end.

(** [ctx.Bind(&appMessage)]: aborts with 400 when the body is malformed. *)
Definition ctx_Bind (ctx : Context)
  : M D (option model.ApplicationMessage.t) :=
  match Body ctx with
  | Some am => ret (Some am)
  | None => (ctx_AbortWithError 400 "bind error" ;;; ret None)%handler
  end.

Definition withPaging (ctx : Context) (f : pagingParams -> M D unit) : M D unit :=
  let params := mkPagingParams 100 0%N in
  (r <- MustBindWith_Query ctx params ;;
   match r.2 with
   | None => f r.1
   | Some _ => ret tt
   end)%handler.

End api.

(** [res[i] = v] on a slice: panics out of range. *)
Definition store {A} (res : list A) (i : int) (v : A) : Result (list A) :=
  if (i <? 0) || (len res <=? i) then Panic "index out of range"
  else Ok (<[Z.to_nat i := v]> res).

Definition result_bind {A B} (r : Result A) (k : A -> Result B) : Result B :=
  match r with
  | Ok a => k a
  | Panic reason => Panic reason
  end.

(** One round of the loop of [toExternalMessages]. *)
Definition toExternalMessages_step (msg : list model.Message.t)
  (res : Result (list (option model.MessageExternal.t))) (i : nat)
  : Result (list (option model.MessageExternal.t)) :=
  result_bind res (fun res =>
  result_bind (index msg (Z.of_nat i)) (fun m =>
  store res (Z.of_nat i) (Some (model.ToExternal m)))).

Definition toExternalMessages (msg : list model.Message.t)
  : Result (list (option model.MessageExternal.t)) :=
  let res := replicate (length msg) None in
  foldl (toExternalMessages_step msg) (Ok res) (seq 0 (length msg)).

Definition buildWithPaging (ctx : Context) (paging : pagingParams)
  (messages : list model.Message.t) : Result model.PagedMessages.t :=
  let next := "" in
  let since := 0%N in
  let useMessages := messages in
  result_bind
    (if len messages >? Limit paging then
       result_bind (slice_to messages (int_sub (len messages) 1)) (fun useMessages =>
       result_bind (index useMessages (int_sub (len useMessages) 1)) (fun last =>
       let since := model.Message.ID last in
       let url0 := Location ctx in
       let url1 := url.mkURL (url.Scheme url0) (url.Host url0)
                             (url.Path (Request_URL ctx)) (url.RawQuery url0) in
       let query := url.Query url1 in
       let query := url.Add query "limit" (Itoa (Limit paging)) in
       let query := url.Add query "since" (FormatUint since) in
       let url2 := url.mkURL (url.Scheme url1) (url.Host url1) (url.Path url1)
                             (url.Encode query) in
       Ok (url.String_ url2, since, useMessages)))
     else Ok (next, since, useMessages))
    (fun '(next, since, useMessages) =>
       result_bind (toExternalMessages useMessages) (fun external =>
       Ok (model.PagedMessages.mk
             (model.Paging.mk (len useMessages) (Limit paging) next since)
             external))).

Module MessageAPI.
Section handlers.

Context {D : Type} `{!DB.MessageDatabase D}.

Local Open Scope handler_scope.

Definition GetMessages (ctx : Context) : M D unit :=
  let userID := UserID ctx in
  withPaging ctx (fun params =>
    r <- db_GetMessagesByUserSince userID (int_add (Limit params) 1) (Since params) ;;
    success <- successOrAbort 500 r.2 ;;
    if negb success then ret tt
    else
      page <- lift (buildWithPaging ctx params r.1) ;;
      ctx_JSON 200 (PagedPayload page)).

Definition GetMessagesWithApplication (ctx : Context) : M D unit :=
  withID ctx (fun id =>
    withPaging ctx (fun params =>
      r <- db_GetApplicationByID id ;;
      success <- successOrAbort 500 r.2 ;;
      if negb success then ret tt
      else
        match r.1 with
        | Some app =>
            if (model.Application.UserID app =? UserID ctx)%N then
              r <- db_GetMessagesByApplicationSince id (int_add (Limit params) 1)
                                                    (Since params) ;;
              success <- successOrAbort 500 r.2 ;;
              if negb success then ret tt
              else
                page <- lift (buildWithPaging ctx params r.1) ;;
                ctx_JSON 200 (PagedPayload page)
            else ctx_AbortWithError 404 "application does not exist"
        | None => ctx_AbortWithError 404 "application does not exist"
        end)).

Definition DeleteMessages (ctx : Context) : M D unit :=
  let userID := UserID ctx in
  r <- db_GetMessagesByUser userID ;;
  success <- successOrAbort 500 r.2 ;;
  if negb success then ret tt
  else
    let event := model.OfMessageDeletions (model.MessageDeletions.mk r.1) in
    Notify (UserID ctx) event ;;;
    err <- db_DeleteMessagesByUser userID ;;
    _ <- successOrAbort 500 err ;;
    ret tt.

Definition DeleteMessageWithApplication (ctx : Context) : M D unit :=
  withID ctx (fun id =>
    r <- db_GetApplicationByID id ;;
    success <- successOrAbort 500 r.2 ;;
    if negb success then ret tt
    else
      match r.1 with
      | Some application =>
          if (model.Application.UserID application =? UserID ctx)%N then
            r <- db_GetMessagesByApplication id ;;
            success <- successOrAbort 500 r.2 ;;
            if negb success then ret tt
            else
              let event := model.OfMessageDeletions (model.MessageDeletions.mk r.1) in
              Notify (UserID ctx) event ;;;
              err <- db_DeleteMessagesByApplication id ;;
              _ <- successOrAbort 500 err ;;
              ret tt
          else ctx_AbortWithError 404 "application does not exists"
      | None => ctx_AbortWithError 404 "application does not exists"
      end).

Definition DeleteMessage (ctx : Context) : M D unit :=
  withID ctx (fun id =>
    r <- db_GetMessageByID id ;;
    success <- successOrAbort 500 r.2 ;;
    if negb success then ret tt
    else
      match r.1 with
      | None => ctx_AbortWithError 404 "message does not exist"
      | Some msg =>
          r <- db_GetApplicationByID (model.Message.ApplicationID msg) ;;
          success <- successOrAbort 500 r.2 ;;
          if negb success then ret tt
          else
            match r.1 with
            | Some app =>
                if (model.Application.UserID app =? UserID ctx)%N then
                  let event := model.OfMessageDeletions (model.MessageDeletions.mk [msg]) in
                  Notify (UserID ctx) event ;;;
                  err <- db_DeleteMessageByID id ;;
                  _ <- successOrAbort 500 err ;;
                  ret tt
                else ctx_AbortWithError 404 "message does not exist"
            | None => ctx_AbortWithError 404 "message does not exist"
            end
      end).

(** [application.ID] and [application.Name] on the pointer the repository
    gave back: a nil pointer panics. *)
Definition deref (application : option model.Application.t) : M D model.Application.t :=
  match application with
  | Some app => ret app
  | None => lift (Panic "invalid memory address or nil pointer dereference")
  end.

Definition CreateMessage (ctx : Context) : M D unit :=
  bound <- ctx_Bind ctx ;;
  match bound with
  | None => ret tt
  | Some appMessage =>
      r <- db_GetApplicationByToken (TokenID ctx) ;;
      success <- successOrAbort 500 r.2 ;;
      if negb success then ret tt
      else
        application <- deref r.1 ;;
        let message := model.ToInternal appMessage (model.Application.ID application) in
        let message :=
          if String.eqb (strings.TrimSpace (model.Message.Title message)) ""
          then model.Message.with_Title (model.Application.Name application) message
          else message in
        r <- db_CreateMessage message ;;
        success <- successOrAbort 500 r.2 ;;
        if negb success then ret tt
        else
          let message := r.1 in
          Notify (UserID ctx) (model.OfMessage message) ;;;
          ctx_JSON 200 (MessagePayload (model.ToExternal message))
  end.

End handlers.
End MessageAPI.

(** A run of a handler on a repository state, from an empty log. *)
Definition run {D A} (h : M D A) (d : D) : Outcome D A := h (mkWorld d []).

(** The responses written during a run, in order. *)
Definition responses (l : list Effect) : list Response :=
  omap (fun e => match e with Responded r => Some r | _ => None end) l.

Definition is_notify (e : Effect) : bool :=
  match e with Notified _ _ => true | _ => false end.

Definition is_delete (e : Effect) : bool :=
  match e with
  | Called (DeleteMessageByID _) _
  | Called (DeleteMessagesByUser _) _
  | Called (DeleteMessagesByApplication _) _ => true
  | _ => false
  end.

(** The calls that change the repository. *)
Definition is_mutation (e : Effect) : bool :=
  match e with
  | Called (CreateMessage _) _ => true
  | _ => is_delete e
  end.

(** The calls that only read it. *)
Definition is_fetch (c : Call) : bool :=
  match c with
  | GetMessagesByApplication _ | GetMessagesByApplicationSince _ _ _
  | GetApplicationByID _ | GetMessagesByUser _ | GetMessagesByUserSince _ _ _
  | GetMessageByID _ | GetApplicationByToken _ => true
  | _ => false
  end.

Definition reply_error (r : Reply) : option error :=
  match r with
  | Rows _ err | App _ err | Row _ err | Done err | Stored _ err => err
  end.

(** ** Vocabulary of the statements *)

(** The first rune of a non-empty string, as [range] yields it, is not
    white space. *)
Definition starts_black (s : string) : Prop :=
  s <> "" /\ unicode.IsSpace (utf8.DecodeRuneInString s).1 = false.

(** [s] is empty or made of white space only: every rune that ranging over
    [s] yields is white space. *)
Definition whitespace_only (s : string) : bool :=
  forallb unicode.IsSpace (strings.runes s).

(** The messages [buildWithPaging] keeps. *)
Definition kept (paging : pagingParams) (messages : list model.Message.t)
  : list model.Message.t :=
  if len messages >? Limit paging
  then take (Z.to_nat (int_sub (len messages) 1)) messages
  else messages.

Definition external (m : model.Message.t) : option model.MessageExternal.t :=
  Some (model.ToExternal m).

(** The URL of the next page as [buildWithPaging] assembles it. *)
Definition next_url (ctx : Context) (limit : int) (since : uint) : string :=
  url.String_
    (url.mkURL (url.Scheme (Location ctx)) (url.Host (Location ctx))
       (url.Path (Request_URL ctx))
       (url.Encode (url.Add (url.Add (url.Query (Location ctx)) "limit" (Itoa limit))
                            "since" (FormatUint since)))).

(** The URL of the next page as the specification words it: a copy of the
    URL of the current request with its [limit] and [since] parameters
    overwritten. *)
Definition next_by_copy (ctx : Context) (limit : int) (since : uint) : string :=
  let u := Request_URL ctx in
  url.String_
    (url.mkURL (url.Scheme u) (url.Host u) (url.Path u)
       (url.Encode (url.Set_ (url.Set_ (url.Query u) "limit" (Itoa limit))
                             "since" (FormatUint since)))).

(** The claim on the page size as it is worded: whatever list is passed,
    the page holds at most [limit] messages. *)
Definition page_within_limit (ctx : Context) (paging : pagingParams)
  (messages : list model.Message.t) : Prop :=
  forall page, buildWithPaging ctx paging messages = Ok page ->
    len (model.PagedMessages.Messages page) <= Limit paging.

(** The run wrote the single response [AbortWithError 500 e], did not
    panic, and neither notified nor changed the repository. *)
Definition aborted_untouched {D A} (o : Outcome D A) (e : error) : Prop :=
  panicked o = false
  /\ responses (log (world_of o)) = [AbortWithError 500 e]
  /\ Forall (fun x => is_notify x = false /\ is_mutation x = false) (log (world_of o)).

(** What a successful fetch says is in scope of the deletion. *)
Definition fetched (r : Reply) : option (list model.Message.t) :=
  match r with
  | Rows messages None => Some messages
  | Row (Some msg) None => Some [msg]
  | _ => None
  end.

Definition deletion (messages : list model.Message.t) : model.Event :=
  model.OfMessageDeletions (model.MessageDeletions.mk messages).

(** Before entry [i] of the log, the call [fetch] gave the messages in
    scope, and after that [owner] was sent the deletion of exactly these. *)
Definition fetched_then_notified (l : list Effect) (i : nat) (fetch : Call) (owner : uint)
  : Prop :=
  exists k j r messages,
    (k < j < i)%nat
    /\ l !! k = Some (Called fetch r) /\ fetched r = Some messages
    /\ l !! j = Some (Notified owner (deletion messages)).

(** Before entry [i] of the log, the application [appID] was found to
    belong to [owner]. *)
Definition owner_resolved (l : list Effect) (i : nat) (appID owner : uint) : Prop :=
  exists k app,
    (k < i)%nat
    /\ l !! k = Some (Called (GetApplicationByID appID) (App (Some app) None))
    /\ model.Application.UserID app = owner.

Definition with_Param_id (id : option uint) (ctx : Context) : Context :=
  mkContext (UserID ctx) (TokenID ctx) (Location ctx) (Request_URL ctx) id
    (Query_form ctx) (Body ctx).

Definition log_of {D A} (h : M D A) (d : D) : list Effect := log (world_of (run h d)).

(** The query parameters of the request pass binding and validation. *)
Definition paging_accepted (ctx : Context) : bool :=
  match Query_form ctx with
  | Some (limit, since) =>
      valid_paging (mkPagingParams (default 100 limit) (default 0%N since))
  | None => false
  end.

(** What the caller of a refused request sees: the single response
    [AbortWithError 404 text], from a run that did not panic and neither
    notified nor changed the repository. *)
Definition not_found {D A} (o : Outcome D A) (text : string) : Prop :=
  panicked o = false
  /\ responses (log (world_of o)) = [AbortWithError 404 text]
  /\ Forall (fun x => is_notify x = false /\ is_mutation x = false) (log (world_of o)).

(** The contract of the paged fetches: at most [limit] rows, newest first
    (identifiers strictly descending, so no two rows share one), all below
    [since] unless [since] is 0. *)
Fixpoint descending (rows : list model.Message.t) : bool :=
  match rows with
  | a :: (b :: _) as rest => (model.Message.ID b <? model.Message.ID a)%N && descending rest
  | _ => true
  end.

Definition respects_contract (limit : int) (since : uint) (rows : list model.Message.t)
  : bool :=
  (len rows <=? limit) && descending rows
  && ((since =? 0)%N || forallb (fun m => (model.Message.ID m <? since)%N) rows).

Definition with_paging (limit : int) (since : uint) (ctx : Context) : Context :=
  mkContext (UserID ctx) (TokenID ctx) (Location ctx) (Request_URL ctx) (Param_id ctx)
    (Some (Some limit, Some since)) (Body ctx).

(** The rows the repository gives user [userID] in state [d] respect the
    contract. *)
Definition answers_by_contract {D : Type} `{!DB.MessageDatabase D}
  (d : D) (userID : uint) (limit : int) (since : uint) : bool :=
  respects_contract limit since (DB.GetMessagesByUserSince userID limit since d).1.1.

(** [a] comes before [b] in a newest-first listing. *)
Definition newer (a b : model.Message.t) : Prop :=
  (model.Message.ID b < model.Message.ID a)%N.

(** ** An in-memory repository *)

(** Modelled from the spec: a repository that keeps applications and
    messages in lists and answers as the repository contract says; the
    paged fetches give at most [limit] messages with an identifier below
    [since] (0: no bound), newest first.  [broken] tells which calls fail
    with a storage error. *)
Module memdb.

Record Store : Type := mkStore {
  applications : list model.Application.t;
  messages : list model.Message.t;
  next_id : uint;
  broken : Call -> bool }.

Definition failure (c : Call) (s : Store) : option error :=
  if broken s c then Some "storage error" else None.

Fixpoint insert_desc (m : model.Message.t) (l : list model.Message.t) : list model.Message.t :=
  match l with
  | [] => [m]
  | x :: rest =>
      if (model.Message.ID x <? model.Message.ID m)%N then m :: x :: rest
      else x :: insert_desc m rest
  end.

Definition newest_first (l : list model.Message.t) : list model.Message.t :=
  foldr insert_desc [] l.

Definition find_application (id : uint) (s : Store) : option model.Application.t :=
  find (fun a => (model.Application.ID a =? id)%N) (applications s).

Definition of_application (appID : uint) (m : model.Message.t) : bool :=
  (model.Message.ApplicationID m =? appID)%N.

Definition of_user (s : Store) (userID : uint) (m : model.Message.t) : bool :=
  match find_application (model.Message.ApplicationID m) s with
  | Some a => (model.Application.UserID a =? userID)%N
  | None => false
  end.

Definition page (limit : int) (since : uint) (l : list model.Message.t)
  : list model.Message.t :=
  take (Z.to_nat limit)
       (List.filter (fun m => (since =? 0)%N || (model.Message.ID m <? since)%N)
                    (newest_first l)).

Definition rows (c : Call) (l : list model.Message.t) (s : Store)
  : list model.Message.t * option error * Store :=
  match failure c s with
  | Some e => ([], Some e, s)
  | None => (l, None, s)
  end.

Definition remove (c : Call) (gone : model.Message.t -> bool) (s : Store)
  : option error * Store :=
  match failure c s with
  | Some e => (Some e, s)
  | None =>
      (None, mkStore (applications s) (List.filter (fun m => negb (gone m)) (messages s))
                     (next_id s) (broken s))
  end.

Definition lookup {A} (c : Call) (a : option A) (s : Store)
  : option A * option error * Store :=
  match failure c s with
  | Some e => (None, Some e, s)
  | None => (a, None, s)
  end.

Definition create (m : model.Message.t) (s : Store)
  : model.Message.t * option error * Store :=
  match failure (CreateMessage m) s with
  | Some e => (m, Some e, s)
  | None =>
      let stored :=
        model.Message.mk (next_id s) (model.Message.ApplicationID m)
          (model.Message.Message m) (model.Message.Title m)
          (model.Message.Priority m) (model.Message.Extras m) (model.Message.Date m) in
      (stored, None,
       mkStore (applications s) (stored :: messages s) (next_id s + 1)%N (broken s))
  end.

#[global] Instance database : DB.MessageDatabase Store := {
  DB.GetMessagesByApplication appID s :=
    rows (GetMessagesByApplication appID)
         (newest_first (List.filter (of_application appID) (messages s))) s;
  DB.GetMessagesByApplicationSince appID limit since s :=
    rows (GetMessagesByApplicationSince appID limit since)
         (page limit since (List.filter (of_application appID) (messages s))) s;
  DB.GetApplicationByID id s :=
    lookup (GetApplicationByID id) (find_application id s) s;
  DB.GetMessagesByUser userID s :=
    rows (GetMessagesByUser userID)
         (newest_first (List.filter (of_user s userID) (messages s))) s;
  DB.GetMessagesByUserSince userID limit since s :=
    rows (GetMessagesByUserSince userID limit since)
         (page limit since (List.filter (of_user s userID) (messages s))) s;
  DB.DeleteMessageByID id s :=
    remove (DeleteMessageByID id) (fun m => (model.Message.ID m =? id)%N) s;
  DB.GetMessageByID id s :=
    lookup (GetMessageByID id)
           (find (fun m => (model.Message.ID m =? id)%N) (messages s)) s;
  DB.DeleteMessagesByUser userID s :=
    remove (DeleteMessagesByUser userID) (of_user s userID) s;
  DB.DeleteMessagesByApplication applicationID s :=
    remove (DeleteMessagesByApplication applicationID) (of_application applicationID) s;
  DB.CreateMessage m s := create m s;
  DB.GetApplicationByToken token s :=
    lookup (GetApplicationByToken token)
           (find (fun a => String.eqb (model.Application.Token a) token) (applications s)) s }.

Definition healthy (c : Call) : bool := false.

End memdb.

(** ** A small scenario: two users, two applications, five messages *)

Module scenario.

Definition weather : model.Application.t := model.Application.mk 1 "Atoken" 1 "Weather Bot".
Definition backup : model.Application.t := model.Application.mk 2 "Btoken" 2 "Backup".

Definition message (id appID : uint) (title : string) : model.Message.t :=
  model.Message.mk id appID "body" title 0 [] 0.

Definition repository : memdb.Store :=
  memdb.mkStore [weather; backup]
    [message 7 1 "a"; message 8 1 "b"; message 9 1 "c"; message 10 1 "d";
     message 11 2 "e"]
    12 memdb.healthy.

Definition here : url.URL := url.mkURL "http" "example.org" "" "".

(** A request of user [userID] on [path] with the given query. *)
Definition request (userID : uint) (path rawQuery : string) (id : option uint)
  (form : option (option int * option uint)) : Context :=
  mkContext userID "" here (url.mkURL "" "" path rawQuery) id form None.

(** A creation request with an application token. *)
Definition creation (userID : uint) (token title : string) : Context :=
  mkContext userID token here (url.mkURL "" "" "/message" "") None None
    (Some (model.ApplicationMessage.mk "body" title 0 [])).

(** Faults: the repository cannot persist, or cannot list the messages of
    a user. *)
Definition persist_fails (c : Call) : bool :=
  match c with CreateMessage _ => true | _ => false end.

Definition fetch_fails (c : Call) : bool :=
  match c with GetMessagesByUser _ => true | _ => false end.

Definition breaking (which : Call -> bool) (s : memdb.Store) : memdb.Store :=
  memdb.mkStore (memdb.applications s) (memdb.messages s) (memdb.next_id s) which.

End scenario.

Import scenario.

(** ** Repository faults and requests for further statements *)

(** The parameters [withPaging] hands to the handler, if it does. *)
Definition accepted_params (ctx : Context) : option pagingParams :=
  match Query_form ctx with
  | Some (limit, since) =>
      let params := mkPagingParams (default 100 limit) (default 0%N since) in
      if valid_paging params then Some params else None
  | None => None
  end.

Definition is_call (e : Effect) : bool :=
  match e with Called _ _ => true | _ => false end.

Definition delete_error (e : Effect) : option (option error) :=
  match e with
  | Called (DeleteMessageByID _) (Done err)
  | Called (DeleteMessagesByUser _) (Done err)
  | Called (DeleteMessagesByApplication _) (Done err) => Some err
  | _ => None
  end.

(** No byte of [s] has a meaning of its own in a raw query. *)
Definition query_safe (s : string) : bool :=
  forallb (fun c => negb (url.one_of c "&;=%+")) (list_ascii_of_string s).

(** ** [package docs]: serving the API documentation *)

Module docs.

(** [strings.HasPrefix]. *)
Fixpoint HasPrefix (s prefix : string) {struct prefix} : bool :=
  match prefix, s with
  | EmptyString, _ => true
  | String a prefix', String b s' => Ascii.eqb a b && HasPrefix s' prefix'
  | String _ _, EmptyString => false
  end.

(** [strings.Index]: the byte offset of the first occurrence, or -1. *)
Fixpoint Index (s substr : string) : int :=
  if HasPrefix s substr then 0
  else match s with
       | EmptyString => -1
       | String _ rest =>
           let i := Index rest substr in
           if i =? -1 then -1 else i + 1
       end.

Definition strlen (s : string) : int := Z.of_nat (String.length s).

(** The loop of [strings.Count] for a non-empty [substr]: every round
    consumes at least one byte, so the length of [s] bounds the rounds. *)
Fixpoint Count_loop (rounds : nat) (s substr : string) (n : int) : int :=
  match rounds with
  | O => n
  | S rounds' =>
      let i := Index s substr in
      if i =? -1 then n
      else Count_loop rounds' (str_slice s (i + strlen substr) (strlen s)) substr (n + 1)
  end.

(** [strings.Count]: non-overlapping occurrences; for the empty string,
    the number of runes plus one. *)
Definition Count (s substr : string) : int :=
  if strlen substr =? 0 then Z.of_nat (length (strings.runes s)) + 1
  else Count_loop (S (String.length s)) s substr 0.

(** The loop [for i := 0; i < n; i++] of [strings.Replace]: the builder and
    [start] after the remaining rounds. *)
Fixpoint Replace_loop (rounds : nat) (i : int) (s old new : string)
  (start : int) (b : string) : string * int :=
  match rounds with
  | O => (b, start)
  | S rounds' =>
      let j :=
        if strlen old =? 0 then
          if i >? 0
          then start + Z.of_nat (snd (utf8.DecodeRuneInString (str_slice s start (strlen s))))
          else start
        else start + Index (str_slice s start (strlen s)) old in
      let b := b +:+ str_slice s start j +:+ new in
      Replace_loop rounds' (i + 1) s old new (j + strlen old) b
  end.

(** [strings.Replace(s, old, new, n)]. *)
Definition Replace (s old new : string) (n : int) : string :=
  if String.eqb old new || (n =? 0) then s
  else
    let m := Count s old in
    if m =? 0 then s
    else
      let n := if (n <? 0) || (m <? n) then m else n in
      let '(b, start) := Replace_loop (Z.to_nat n) 0 s old new 0 "" in
      b +:+ str_slice s start (strlen s).

(** [get(host)]: [box] is the packr box of the package, a file name giving
    its content. *)
Definition get (box : string -> string) (host : string) : string :=
  Replace (box "spec.json") "localhost" host 1.

(** [Serve(ctx)]: [written] is what the response writer holds so far, the
    result what it holds afterwards. *)
Definition Serve (box : string -> string) (ctx : Context) (written : string) : string :=
  written +:+ get box (url.Host (Request_URL ctx)).

End docs.

(** ** Further cases of the scenario *)

Module cases.

Definition paged_fetch_fails (c : Call) : bool :=
  match c with GetMessagesByUserSince _ _ _ => true | _ => false end.

Definition token_lookup_fails (c : Call) : bool :=
  match c with GetApplicationByToken _ => true | _ => false end.

(** A repository holding a message of an application it does not know. *)
Definition orphaned : memdb.Store :=
  memdb.mkStore [weather] [message 20 5 "x"] 21 memdb.healthy.

(** Two boxes: a documentation without and with [localhost]. *)
Definition plain_box (name : string) : string := "{}".
Definition local_box (name : string) : string := "http://localhost/ localhost".

Definition three : list model.Message.t :=
  [message 10 1 "d"; message 9 1 "c"; message 8 1 "b"].

End cases.

Import cases.

(** * Facts on the standard library functions *)

Lemma append_cons c s t : String c s +:+ t = String c (s +:+ t).
Proof. reflexivity. Qed.

Lemma length_append s t :
  String.length (s +:+ t) = (String.length s + String.length t)%nat.
Proof. induction s as [|c s IH]; [done|]. rewrite append_cons. simpl. by rewrite IH. Qed.

Lemma str_take_drop n s : str_take n s +:+ str_drop n s = s.
Proof.
  revert s; induction n as [|n IH]; intros [|c s]; simpl; try reflexivity.
  rewrite append_cons. f_equal. apply IH.
Qed.

Lemma length_str_take n s : String.length (str_take n s) = Nat.min n (String.length s).
Proof.
  revert s; induction n as [|n IH]; intros [|c s]; simpl; try reflexivity.
  by rewrite IH.
Qed.

Lemma length_str_drop n s : String.length (str_drop n s) = (String.length s - n)%nat.
Proof.
  revert s; induction n as [|n IH]; intros [|c s]; simpl; try reflexivity; auto with arith.
Qed.

Lemma str_take_all n s : (String.length s <= n)%nat -> str_take n s = s.
Proof.
  revert s; induction n as [|n IH]; intros [|c s]; simpl; intros H; try reflexivity; try lia.
  rewrite IH; [done | lia].
Qed.

Lemma str_drop_all n s : (String.length s <= n)%nat -> str_drop n s = "".
Proof.
  revert s; induction n as [|n IH]; intros [|c s]; simpl; intros H; try reflexivity; try lia.
  apply IH; lia.
Qed.

Lemma str_drop_drop n m s : str_drop n (str_drop m s) = str_drop (m + n) s.
Proof.
  revert s; induction m as [|m IH]; intros s; simpl; [done|].
  destruct s as [|c s]; [by destruct n | apply IH].
Qed.

Lemma str_take_take n m s : (n <= m)%nat -> str_take n (str_take m s) = str_take n s.
Proof.
  revert m s; induction n as [|n IH]; intros m s H; simpl; [done|].
  destruct m as [|m]; [lia|]. destruct s as [|c s]; simpl; [done|].
  rewrite IH; [done | lia].
Qed.

Lemma str_take_app n s t : (n <= String.length s)%nat -> str_take n (s +:+ t) = str_take n s.
Proof.
  revert s; induction n as [|n IH]; intros s H; simpl; [done|].
  destruct s as [|c s]; simpl in *; [lia|]. try rewrite append_cons; simpl.
  rewrite IH; [done | lia].
Qed.

Lemma str_slice_prefix s i : str_slice s 0 i = str_take (Z.to_nat i) s.
Proof. unfold str_slice. simpl. by rewrite Nat.sub_0_r. Qed.

Lemma str_slice_suffix s i :
  str_slice s i (Z.of_nat (String.length s)) = str_drop (Z.to_nat i) s.
Proof.
  unfold str_slice. apply str_take_all. rewrite length_str_drop, Nat2Z.id. lia.
Qed.

Lemma DecodeRune_size s r k :
  s <> "" -> utf8.DecodeRuneInString s = (r, k) -> (1 <= k <= String.length s)%nat.
Proof.
  intros Hs. unfold utf8.DecodeRuneInString.
  destruct s as [|c0 s]; [done|]. clear Hs.
  repeat case_match; intros [= <- <-]; simpl in *; lia.
Qed.

Lemma IsSpace_RuneError : unicode.IsSpace utf8.RuneError = false.
Proof. reflexivity. Qed.

Lemma DecodeRune_space_app s t r k :
  utf8.DecodeRuneInString s = (r, k) -> unicode.IsSpace r = true ->
  utf8.DecodeRuneInString (s +:+ t) = (r, k).
Proof.
  unfold utf8.DecodeRuneInString.
  destruct s as [|c0 s]; [by intros [= <- <-]|].
  rewrite append_cons.
  destruct (utf8.first (N_of_ascii c0)) as [| |sz lo hi]; [done | by intros [= <- <-] |].
  destruct (String.length (String c0 s) <? sz)%nat eqn:Hlen; [by intros [= <- <-]|].
  assert ((String.length (String c0 (s +:+ t)) <? sz)%nat = false) as ->.
  { apply Nat.ltb_ge. apply Nat.ltb_ge in Hlen. simpl in *.
    rewrite length_append. lia. }
  destruct s as [|c1 s]; [by intros [= <- <-]|]. rewrite append_cons.
  destruct ((N_of_ascii c1 <? lo)%N || (hi <? N_of_ascii c1)%N); [by intros [= <- <-]|].
  destruct (sz <=? 2)%nat; [done|].
  destruct s as [|c2 s]; [by intros [= <- <-]|]. rewrite append_cons.
  destruct (utf8.cont (N_of_ascii c2)); [by intros [= <- <-]|].
  destruct (sz <=? 3)%nat; [done|].
  destruct s as [|c3 s]; [by intros [= <- <-]|]. rewrite append_cons.
  done.
Qed.

Lemma scan_back_le s lim start n : utf8.scan_back s lim start n <= start.
Proof.
  revert start; induction n as [|n IH]; intros start; simpl; [lia|].
  repeat case_match; try lia. specialize (IH (start - 1)). lia.
Qed.

Lemma str_drop_last s :
  s <> "" ->
  exists c, str_drop (String.length s - 1) s = String c ""
            /\ String.get (String.length s - 1) s = Some c.
Proof.
  induction s as [|c s IH]; [done|]. intros _.
  destruct s as [|c' s]; [by exists c|].
  destruct IH as (c1 & H1 & H2); [done|]. exists c1.
  replace (String.length (String c (String c' s)) - 1)%nat
    with (S (String.length (String c' s) - 1))%nat by (simpl; lia).
  by split.
Qed.

Lemma DecodeLastRune_size s r k :
  s <> "" -> utf8.DecodeLastRuneInString s = (r, k) -> (1 <= k <= String.length s)%nat.
Proof.
  intros Hs. unfold utf8.DecodeLastRuneInString.
  assert (0 < String.length s)%nat as Hlen by (destruct s; [done | simpl; lia]).
  destruct (Z.eqb_spec (Z.of_nat (String.length s)) 0) as [|_]; [lia|].
  destruct (_ <? utf8.RuneSelf)%N; [intros [= <- <-]; lia|].
  set (lim := if Z.of_nat _ - utf8.UTFMax <? 0 then 0 else _).
  set (start := utf8.scan_back s lim _ 4).
  assert (start <= Z.of_nat (String.length s) - 2) as Hstart
    by (pose proof (scan_back_le s lim (Z.of_nat (String.length s) - 1 - 1) 4); lia).
  set (start' := if start <? 0 then 0 else start).
  assert (0 <= start' < Z.of_nat (String.length s)) as Hstart'
    by (unfold start'; destruct (Z.ltb_spec start 0); lia).
  destruct (utf8.DecodeRuneInString _) as [r' size] eqn:Hdec.
  destruct (Z.eqb_spec (start' + Z.of_nat size) (Z.of_nat (String.length s)));
    intros [= <- <-]; lia.
Qed.

Lemma DecodeLastRune_space s r k :
  utf8.DecodeLastRuneInString s = (r, k) -> unicode.IsSpace r = true ->
  utf8.DecodeRuneInString (str_drop (String.length s - k) s) = (r, k).
Proof.
  unfold utf8.DecodeLastRuneInString.
  destruct (Z.eqb_spec (Z.of_nat (String.length s)) 0) as [|Hlen]; [by intros [= <- <-]|].
  assert (s <> "") as Hs by (intros ->; simpl in *; lia).
  destruct (str_drop_last s Hs) as (c & Hdrop & Hget).
  unfold str_index. replace (Z.to_nat (Z.of_nat (String.length s) - 1))
    with (String.length s - 1)%nat by lia. rewrite Hget.
  destruct (N.ltb_spec (N_of_ascii c) utf8.RuneSelf) as [Hascii|_].
  { intros [= <- <-] _. rewrite Hdrop. unfold utf8.DecodeRuneInString, utf8.first.
    unfold utf8.RuneSelf in Hascii. apply N.ltb_lt in Hascii. by rewrite Hascii. }
  set (lim := if Z.of_nat _ - utf8.UTFMax <? 0 then 0 else _).
  set (start := utf8.scan_back s lim _ 4).
  set (start' := if start <? 0 then 0 else start).
  assert (0 <= start') as Hstart' by (unfold start'; destruct (Z.ltb_spec start 0); lia).
  rewrite str_slice_suffix.
  destruct (utf8.DecodeRuneInString _) as [r' size] eqn:Hdec.
  destruct (Z.eqb_spec (start' + Z.of_nat size) (Z.of_nat (String.length s))) as [Heq|_];
    [|by intros [= <- <-]].
  intros [= <- <-] _.
  replace (String.length s - size)%nat with (Z.to_nat start') by lia. done.
Qed.


Lemma lastIndexFunc_loop_black n s i :
  0 < i <= Z.of_nat (String.length s) -> (Z.to_nat i <= n)%nat ->
  starts_black (str_take (Z.to_nat i) s) ->
  0 <= strings.lastIndexFunc_loop n s i unicode.IsSpace false < i.
Proof.
  revert i. induction n as [|n IH]; intros i Hi Hn [Hne Hblack]; [lia|].
  simpl. destruct (Z.gtb_spec i 0) as [_|]; [|lia].
  rewrite str_slice_prefix.
  destruct (utf8.DecodeLastRuneInString _) as [r size] eqn:Hlast.
  pose proof (DecodeLastRune_size _ _ _ Hne Hlast) as Hsize.
  rewrite length_str_take in Hsize.
  destruct (unicode.IsSpace r) eqn:Hr; simpl; [|lia].
  pose proof (DecodeLastRune_space _ _ _ Hlast Hr) as Hdec.
  rewrite length_str_take in Hdec.
  replace (Nat.min (Z.to_nat i) (String.length s)) with (Z.to_nat i) in * by lia.
  set (p := str_take (Z.to_nat i - size) s).
  assert (str_take (Z.to_nat i) s
          = p +:+ str_drop (Z.to_nat i - size) (str_take (Z.to_nat i) s)) as Hsplit.
  { rewrite <- (str_take_drop (Z.to_nat i - size) (str_take (Z.to_nat i) s)) at 1.
    f_equal. apply str_take_take. lia. }
  destruct (decide (Z.to_nat i - size = 0)%nat) as [Hz|Hnz].
  { rewrite Hz in Hdec. simpl in Hdec. rewrite Hdec in Hblack. simpl in Hblack. congruence. }
  assert (starts_black p) as Hp.
  { split.
    - intros Hp. apply (f_equal String.length) in Hp. unfold p in Hp.
      rewrite length_str_take in Hp. simpl in Hp. lia.
    - destruct (utf8.DecodeRuneInString p) as [r' k'] eqn:Hdp. simpl.
      destruct (unicode.IsSpace r') eqn:Hr'; [|done].
      rewrite Hsplit in Hblack.
      rewrite (DecodeRune_space_app _ _ _ _ Hdp Hr') in Hblack. simpl in Hblack. congruence. }
  specialize (IH (i - Z.of_nat size)).
  replace (Z.to_nat (i - Z.of_nat size)) with (Z.to_nat i - size)%nat in IH by lia.
  specialize (IH ltac:(lia) ltac:(lia) Hp). lia.
Qed.


Lemma indexFunc_loop_spec n s i :
  0 <= i -> (String.length s <= n)%nat ->
  if forallb unicode.IsSpace (strings.runes_loop n s)
  then strings.indexFunc_loop n s i unicode.IsSpace false = -1
  else let j := strings.indexFunc_loop n s i unicode.IsSpace false in
       i <= j < i + Z.of_nat (String.length s)
       /\ starts_black (str_drop (Z.to_nat (j - i)) s).
Proof.
  revert s i. induction n as [|n IH]; intros s i Hi Hn.
  { destruct s; simpl in *; [done | lia]. }
  destruct s as [|c s]; [done|].
  cbn [strings.runes_loop strings.indexFunc_loop].
  destruct (utf8.DecodeRuneInString (String c s)) as [r size] eqn:Hdec.
  pose proof (DecodeRune_size (String c s) r size ltac:(done) Hdec) as Hsize.
  cbn [forallb]. destruct (unicode.IsSpace r) eqn:Hr; cbn [Bool.eqb andb].
  - specialize (IH (str_drop size (String c s)) (i + Z.of_nat size) ltac:(lia)).
    rewrite length_str_drop in IH. specialize (IH ltac:(simpl in *; lia)).
    destruct (forallb _ _); [done|]. cbv zeta in *.
    destruct IH as [Hj Hblack]. split; [lia|].
    rewrite str_drop_drop in Hblack.
    replace (Z.to_nat _) with
      (size + Z.to_nat (strings.indexFunc_loop n (str_drop size (String c s))
                          (i + Z.of_nat size) unicode.IsSpace false
                        - (i + Z.of_nat size)))%nat by lia.
    done.
  - cbv zeta. split; [simpl in *; lia|]. rewrite Z.sub_diag. simpl.
    split; [done|]. by rewrite Hdec.
Qed.

Lemma str_take_nonempty n s : (0 < n)%nat -> s <> "" -> str_take n s <> "".
Proof. destruct n, s; simpl; try done; lia. Qed.

Lemma TrimRightFunc_black s :
  starts_black s -> strings.TrimRightFunc s unicode.IsSpace <> "".
Proof.
  intros Hblack. pose proof Hblack as [Hne _].
  assert (0 < String.length s)%nat as Hlen by (destruct s; [done | simpl; lia]).
  unfold strings.TrimRightFunc, strings.lastIndexFunc.
  pose proof (lastIndexFunc_loop_black (String.length s) s (Z.of_nat (String.length s))
                ltac:(lia) ltac:(lia)) as Hlast.
  rewrite Nat2Z.id, str_take_all in Hlast by done. specialize (Hlast Hblack).
  set (i := strings.lastIndexFunc_loop _ _ _ _ _) in *.
  rewrite str_slice_prefix, str_slice_suffix.
  apply str_take_nonempty; [|done].
  destruct (_ && _); [|lia].
  destruct (utf8.DecodeRuneInString _) as [r wid] eqn:Hdec. simpl.
  apply DecodeRune_size in Hdec; [lia|].
  intros Hd. apply (f_equal String.length) in Hd.
  rewrite length_str_drop in Hd. simpl in Hd. lia.
Qed.

(** [strings.TrimSpace(s) == ""] exactly when [s] is empty or white space
    only. *)
Lemma TrimSpace_empty_iff s :
  strings.TrimSpace s = "" <-> whitespace_only s = true.
Proof.
  unfold strings.TrimSpace, strings.TrimFunc, strings.TrimLeftFunc, strings.indexFunc,
    whitespace_only, strings.runes.
  pose proof (indexFunc_loop_spec (String.length s) s 0 ltac:(lia) ltac:(lia)) as Hspec.
  destruct (forallb _ _).
  - rewrite Hspec. done.
  - cbv zeta in Hspec. destruct Hspec as [Hj Hblack].
    set (j := strings.indexFunc_loop _ _ _ _ _) in *.
    destruct (Z.eqb_spec j (-1)) as [|_]; [lia|].
    rewrite str_slice_suffix. rewrite Z.sub_0_r in Hblack.
    split; [|done]. intros H. by apply TrimRightFunc_black in H.
Qed.

(** * The paging of [buildWithPaging] *)

Section toExternalMessages_facts.

Lemma toExternalMessages_prefix (msg : list model.Message.t) (k : nat) :
  (k <= length msg)%nat ->
  foldl (toExternalMessages_step msg) (Ok (replicate (length msg) None)) (seq 0 k)
  = Ok (map external (take k msg) ++ replicate (length msg - k) None).
Proof.
  induction k as [|k IH]; intros Hk.
  { simpl. by rewrite Nat.sub_0_r. }
  rewrite seq_S, foldl_snoc, IH by lia. simpl.
  destruct (lookup_lt_is_Some_2 msg k ltac:(lia)) as [m Hm].
  unfold toExternalMessages_step, result_bind, index, store.
  destruct (Z.ltb_spec (Z.of_nat k) 0) as [|_]; [lia|].
  rewrite Nat2Z.id, Hm. simpl.
  unfold len. rewrite length_app, length_map, length_take, length_replicate.
  destruct (Z.leb_spec (Z.of_nat (k `min` length msg + (length msg - k))) (Z.of_nat k));
    [lia|].
  f_equal. rewrite insert_app_r_alt by (rewrite length_map, length_take; lia).
  rewrite length_map, length_take.
  replace (k - k `min` length msg)%nat with 0%nat by lia.
  replace (length msg - k)%nat with (S (length msg - S k)) by lia.
  rewrite (take_S_r _ _ _ Hm), map_app, <- app_assoc. done.
Qed.

Lemma toExternalMessages_map (msg : list model.Message.t) :
  toExternalMessages msg = Ok (map external msg).
Proof.
  unfold toExternalMessages. rewrite toExternalMessages_prefix by done.
  rewrite firstn_all, Nat.sub_diag. simpl. by rewrite app_nil_r.
Qed.

End toExternalMessages_facts.

Lemma int_wrap_small z : - 2 ^ 63 <= z < 2 ^ 63 -> int_wrap z = z.
Proof. unfold int_wrap. intros H. rewrite Z.mod_small; lia. Qed.

(** [buildWithPaging] on a list that fits the limit. *)
Lemma buildWithPaging_last_page ctx paging messages :
  len messages <= Limit paging ->
  buildWithPaging ctx paging messages
  = Ok (model.PagedMessages.mk
          (model.Paging.mk (len messages) (Limit paging) "" 0%N)
          (map external messages)).
Proof.
  intros H. unfold buildWithPaging.
  destruct (Z.gtb_spec (len messages) (Limit paging)) as [|_]; [lia|].
  simpl. by rewrite toExternalMessages_map.
Qed.

(** [buildWithPaging] on a longer list: the last message goes, the one
    before it gives the cursor. *)
Lemma buildWithPaging_full_page ctx paging messages :
  1 <= Limit paging -> Limit paging < len messages < 2 ^ 63 ->
  exists last,
    messages !! (length messages - 2)%nat = Some last /\
    buildWithPaging ctx paging messages
    = Ok (model.PagedMessages.mk
            (model.Paging.mk (len messages - 1) (Limit paging)
               (next_url ctx (Limit paging) (model.Message.ID last))
               (model.Message.ID last))
            (map external (take (length messages - 1) messages))).
Proof.
  intros Hlimit Hlen. unfold len in *.
  destruct (lookup_lt_is_Some_2 messages (length messages - 2) ltac:(lia)) as [last Hlast].
  exists last. split; [done|]. unfold buildWithPaging, len.
  destruct (Z.gtb_spec (Z.of_nat (length messages)) (Limit paging)) as [_|]; [|lia].
  unfold int_sub. rewrite int_wrap_small by lia.
  unfold slice_to, len.
  destruct (Z.ltb_spec (Z.of_nat (length messages) - 1) 0) as [|_]; [lia|].
  destruct (Z.ltb_spec (Z.of_nat (length messages)) (Z.of_nat (length messages) - 1)) as [|_];
    [lia|].
  cbn [orb result_bind]. rewrite length_take.
  rewrite int_wrap_small by lia. unfold index.
  replace (Z.to_nat (Z.of_nat (length messages) - 1)) with (length messages - 1)%nat by lia.
  replace (Z.of_nat ((length messages - 1) `min` length messages) - 1)
    with (Z.of_nat (length messages - 2)) by lia.
  destruct (Z.ltb_spec (Z.of_nat (length messages - 2)) 0) as [|_]; [lia|].
  rewrite Nat2Z.id, lookup_take_lt by lia. rewrite Hlast.
  cbn [result_bind]. rewrite toExternalMessages_map. cbn [result_bind].
  unfold next_url, url.Query, len. rewrite length_take.
  cbn [url.Scheme url.Host url.Path url.RawQuery].
  do 3 f_equal. lia.
Qed.

(** *** Facts on the URL of the next page *)

Lemma append_nonempty_r s t : t <> "" -> s +:+ t <> "".
Proof.
  intros Ht H. apply (f_equal String.length) in H. rewrite length_append in H.
  destruct t; [done | simpl in H; lia].
Qed.

Lemma append_nonempty_l s t : s <> "" -> s +:+ t <> "".
Proof. destruct s; [done|]. by rewrite append_cons. Qed.

Lemma String_nonempty u : url.RawQuery u <> "" -> url.String_ u <> "".
Proof.
  intros Hq. unfold url.String_. cbv zeta.
  destruct (String.eqb_spec (url.RawQuery u) "") as [|_]; [done|].
  do 5 apply append_nonempty_r. done.
Qed.

Lemma concat_nonempty sep e l : In e l -> e <> "" -> sep <> "" -> String.concat sep l <> "".
Proof.
  intros Hin He Hsep. induction l as [|a l IH]; [done|].
  simpl. destruct l as [|b l].
  - destruct Hin as [->|[]]. done.
  - destruct (decide (a = "")) as [->|Ha].
    + by apply append_nonempty_r, append_nonempty_l.
    + by apply append_nonempty_l.
Qed.

Lemma Add_In v key value : exists vs, In (key, vs ++ [value]) (url.Add v key value).
Proof.
  induction v as [|[k vs] v IH]; simpl.
  - exists []. by left.
  - destruct (String.eqb_spec key k) as [->|_].
    + exists vs. by left.
    + destruct (String.ltb key k).
      * exists []. by left.
      * destruct IH as [vs' H]. exists vs'. by right.
Qed.

Lemma Encode_Add_nonempty v key value : url.Encode (url.Add v key value) <> "".
Proof.
  destruct (Add_In v key value) as [vs Hin]. unfold url.Encode.
  apply (concat_nonempty _ (url.QueryEscape key +:+ "=" +:+ url.QueryEscape value));
    [| by apply append_nonempty_r | done].
  apply in_concat. exists (url.encodePairs (key, vs ++ [value])). split.
  - by apply (in_map url.encodePairs) in Hin.
  - unfold url.encodePairs. simpl. rewrite map_app. apply in_or_app. right. by left.
Qed.

Lemma next_url_nonempty ctx limit since : next_url ctx limit since <> "".
Proof. apply String_nonempty. simpl. apply Encode_Add_nonempty. Qed.

Lemma escape_digits d mode :
  url.escape (NilEmpty.string_of_uint d) mode = NilEmpty.string_of_uint d.
Proof. induction d as [|d IH|d IH|d IH|d IH|d IH|d IH|d IH|d IH|d IH|d IH]; simpl; [done|..]; by destruct mode; rewrite IH. Qed.

Lemma QueryEscape_FormatUint u : url.QueryEscape (FormatUint u) = FormatUint u.
Proof.
  unfold url.QueryEscape, FormatUint, NilZero.string_of_uint.
  destruct (N.to_uint u); try apply escape_digits. done.
Qed.

Lemma QueryEscape_Itoa i : url.QueryEscape (Itoa i) = Itoa i.
Proof.
  unfold url.QueryEscape, Itoa, NilZero.string_of_int, NilZero.string_of_uint.
  destruct (Z.to_int i) as [d|d]; destruct d; try apply escape_digits; try done;
    change (url.escape (String "-" ?s) ?m) with (String "-" (url.escape s m));
    f_equal; apply (escape_digits _ url.encodeQueryComponent).
Qed.

(** With no query on the stored location, the query of the next page is
    exactly the two parameters. *)
Lemma next_query_plain limit since :
  url.Encode (url.Add (url.Add (url.ParseQuery "") "limit" (Itoa limit))
                      "since" (FormatUint since))
  = "limit=" +:+ Itoa limit +:+ "&since=" +:+ FormatUint since.
Proof.
  unfold url.ParseQuery. simpl. unfold url.Encode, url.encodePairs. simpl.
  rewrite QueryEscape_FormatUint, QueryEscape_Itoa. reflexivity.
Qed.



Lemma page_size_counterexample :
  ~ page_within_limit (request 1 "/message" "" None None) (mkPagingParams 1 0)
      [message 10 1 "d"; message 9 1 "c"; message 8 1 "b"].
Proof.
  intros H. specialize (H _ eq_refl). vm_compute in H. by apply H.
Qed.

(** C1, as the code has it: for every limit in [1,200] and every list of messages,
    [buildWithPaging] returns a page that carries a non-empty next URL if
    and only if the list holds more than [limit] messages; when the list
    holds at most [limit + 1] messages, as the lists the handlers pass do,
    the page holds at most [limit] messages. *)
Theorem buildWithPaging_page ctx paging messages :
  1 <= Limit paging <= 200 -> len messages < 2 ^ 63 ->
  exists page,
    buildWithPaging ctx paging messages = Ok page
    /\ (model.Paging.Next (model.PagedMessages.Paging page) <> ""
        <-> Limit paging < len messages)
    /\ (len messages <= Limit paging + 1 ->
        len (model.PagedMessages.Messages page) <= Limit paging).
Proof.
  intros Hlimit Hlen.
  destruct (Z.le_gt_cases (len messages) (Limit paging)) as [Hfit|Hover].
  - eexists. split; [by apply buildWithPaging_last_page|]. simpl. split.
    + split; [done | lia].
    + intros _. unfold len in *. rewrite length_map. done.
  - destruct (buildWithPaging_full_page ctx paging messages) as (last & _ & ->); [lia..|].
    eexists. split; [done|]. simpl. split.
    + split; [done|]. intros _. apply next_url_nonempty.
    + unfold len in *. rewrite length_map, length_take. lia.
Qed.

Lemma buildWithPaging_page_witness :
  exists page,
    buildWithPaging (request 1 "/message" "" None None) (mkPagingParams 2 0)
      [message 10 1 "d"; message 9 1 "c"; message 8 1 "b"] = Ok page
    /\ model.Paging.Next (model.PagedMessages.Paging page)
       = "http://example.org/message?limit=2&since=9"
    /\ len (model.PagedMessages.Messages page) <= 2.
Proof.
  destruct (buildWithPaging_page (request 1 "/message" "" None None) (mkPagingParams 2 0)
              [message 10 1 "d"; message 9 1 "c"; message 8 1 "b"])
    as (page & Hpage & _ & Hsize); [simpl; lia | vm_compute; reflexivity |].
  exists page. split; [exact Hpage|]. split.
  - vm_compute in Hpage. injection Hpage as <-. reflexivity.
  - apply Hsize. vm_compute. discriminate.
Defined.

Lemma buildWithPaging_returns ctx paging messages :
  1 <= Limit paging -> len messages < 2 ^ 63 ->
  exists page, buildWithPaging ctx paging messages = Ok page.
Proof.
  intros Hlimit Hlen.
  destruct (Z.le_gt_cases (len messages) (Limit paging)) as [Hfit|Hover].
  - eexists. by apply buildWithPaging_last_page.
  - destruct (buildWithPaging_full_page ctx paging messages) as (last & _ & ->); [lia..|].
    by eexists.
Qed.

(** Whatever [buildWithPaging] returns is made of the kept messages. *)
Lemma buildWithPaging_inv ctx paging messages page :
  buildWithPaging ctx paging messages = Ok page ->
  exists next since,
    page = model.PagedMessages.mk
             (model.Paging.mk (len (kept paging messages)) (Limit paging) next since)
             (map external (kept paging messages)).
Proof.
  unfold buildWithPaging, kept.
  destruct (len messages >? Limit paging).
  - unfold slice_to. destruct (_ || _); [done|]. cbn [result_bind].
    destruct (index _ _); [|done]. cbn [result_bind].
    rewrite toExternalMessages_map. cbn [result_bind].
    intros [= <-]. by eexists _, _.
  - cbn [result_bind]. rewrite toExternalMessages_map. cbn [result_bind].
    intros [= <-]. by eexists _, _.
Qed.

(** C10: in every page [buildWithPaging] produces, [Size] is the number of
    messages returned, and these are the kept input messages turned into
    their external views, in the same order; a page is produced for every
    limit of at least 1. *)
Theorem buildWithPaging_size_and_order ctx paging messages :
  (1 <= Limit paging -> len messages < 2 ^ 63 ->
   exists page, buildWithPaging ctx paging messages = Ok page)
  /\ forall page, buildWithPaging ctx paging messages = Ok page ->
       model.Paging.Size (model.PagedMessages.Paging page)
       = len (model.PagedMessages.Messages page)
       /\ model.PagedMessages.Messages page = map external (kept paging messages).
Proof.
  split.
  - apply buildWithPaging_returns.
  - intros page Hpage.
    destruct (buildWithPaging_inv _ _ _ _ Hpage) as (next & since & ->).
    cbn [model.PagedMessages.Paging model.PagedMessages.Messages model.Paging.Size].
    split; [|reflexivity]. unfold len. by rewrite length_map.
Qed.

Lemma buildWithPaging_size_and_order_witness :
  let ctx := request 1 "/message" "" None None in
  let messages := [message 10 1 "d"; message 9 1 "c"; message 8 1 "b"] in
  exists page,
    buildWithPaging ctx (mkPagingParams 2 0) messages = Ok page
    /\ model.Paging.Size (model.PagedMessages.Paging page) = 2
    /\ model.PagedMessages.Messages page
       = [external (message 10 1 "d"); external (message 9 1 "c")].
Proof.
  intros ctx messages.
  destruct (buildWithPaging_size_and_order ctx (mkPagingParams 2 0) messages) as [Hex Hok].
  destruct Hex as [page Hpage]; [simpl; lia | vm_compute; reflexivity |].
  exists page. destruct (Hok page Hpage) as [Hsize Hmsgs].
  split; [exact Hpage|]. split.
  - rewrite Hsize, Hmsgs. reflexivity.
  - rewrite Hmsgs. reflexivity.
Defined.

(** The claim on the next-page URL as it is worded fails on a request
    that carries another query parameter. *)
Lemma next_url_counterexample :
  let ctx := mkContext 1 "" here
               (url.mkURL "http" "example.org" "/message" "limit=2&token=abc")
               None None None in
  exists page,
    buildWithPaging ctx (mkPagingParams 2 0)
      [message 10 1 "d"; message 9 1 "c"; message 8 1 "b"] = Ok page
    /\ model.Paging.Next (model.PagedMessages.Paging page)
       = "http://example.org/message?limit=2&since=9"
    /\ next_by_copy ctx 2 9 = "http://example.org/message?limit=2&since=9&token=abc"
    /\ model.Paging.Next (model.PagedMessages.Paging page) <> next_by_copy ctx 2 9.
Proof.
  intros ctx. eexists. split; [vm_compute; reflexivity|]. simpl.
  split; [vm_compute; reflexivity|]. split; [vm_compute; reflexivity|].
  vm_compute. discriminate.
Qed.

(** Parameters the stored location already carries are kept next to the
    new ones: [Add] appends, it does not overwrite. *)
Example next_url_appends :
  next_url (mkContext 1 "" (url.mkURL "http" "example.org" "" "since=5")
              (url.mkURL "" "" "/message" "") None None None) 2 9
  = "http://example.org/message?limit=2&since=5&since=9".
Proof. vm_compute. reflexivity. Qed.

(** C7, as the code has it: on every full page the cursor is the identifier of the
    oldest message kept, and the next-page URL is the stored location
    (scheme and host) with the path of the current request and with
    [limit] and [since] added to the query of the location; when the
    location carries no query, the query is exactly
    [limit=<limit>&since=<cursor>]. *)
Theorem buildWithPaging_next ctx paging messages page :
  len messages < 2 ^ 63 ->
  buildWithPaging ctx paging messages = Ok page ->
  model.Paging.Next (model.PagedMessages.Paging page) <> "" ->
  exists oldest,
    last (kept paging messages) = Some oldest
    /\ model.Paging.Since (model.PagedMessages.Paging page) = model.Message.ID oldest
    /\ model.Paging.Next (model.PagedMessages.Paging page)
       = next_url ctx (Limit paging) (model.Message.ID oldest)
    /\ (url.RawQuery (Location ctx) = "" ->
        model.Paging.Next (model.PagedMessages.Paging page)
        = url.String_
            (url.mkURL (url.Scheme (Location ctx)) (url.Host (Location ctx))
               (url.Path (Request_URL ctx))
               ("limit=" +:+ Itoa (Limit paging)
                +:+ "&since=" +:+ FormatUint (model.Message.ID oldest)))).
Proof.
  intros Hlen. unfold buildWithPaging, kept.
  destruct (len messages >? Limit paging).
  2:{ cbn [result_bind]. rewrite toExternalMessages_map. by intros [= <-]. }
  unfold slice_to, int_sub.
  destruct (Z.ltb_spec (int_wrap (len messages - 1)) 0) as [|Hpos]; [done|].
  destruct (_ <? _); [done|]. cbn [orb result_bind].
  set (useMessages := take _ messages).
  assert (len useMessages < 2 ^ 63) as Huse
    by (unfold len, useMessages in *; rewrite length_take; lia).
  unfold index.
  destruct (Z.ltb_spec (int_wrap (len useMessages - 1)) 0) as [|Hpos']; [done|].
  destruct (useMessages !! _) as [oldest|] eqn:Hlast; [|done].
  cbn [result_bind]. rewrite toExternalMessages_map. cbn [result_bind].
  intros [= <-] _. cbn [model.PagedMessages.Paging model.Paging.Next model.Paging.Since].
  exists oldest.
  assert (1 <= len useMessages) as Hne.
  { destruct (Z.le_gt_cases 1 (len useMessages)) as [|Hz]; [done|].
    assert (len useMessages = 0) as Hz' by (unfold len in *; lia).
    rewrite Hz' in Hpos'. vm_compute in Hpos'. done. }
  rewrite int_wrap_small in Hlast by lia.
  split; [|split; [done|split; [done|]]].
  - rewrite last_lookup. rewrite <- Hlast. f_equal. unfold len. lia.
  - intros Hplain. unfold url.Query. cbn [url.RawQuery]. rewrite Hplain.
    by rewrite next_query_plain.
Qed.

Lemma buildWithPaging_next_witness :
  let ctx := mkContext 1 "" here
               (url.mkURL "" "" "/message" "limit=2&token=abc") None None None in
  exists page,
    buildWithPaging ctx (mkPagingParams 2 0)
      [message 10 1 "d"; message 9 1 "c"; message 8 1 "b"] = Ok page
    /\ model.Paging.Next (model.PagedMessages.Paging page)
       = "http://example.org/message?limit=2&since=9".
Proof.
  intros ctx.
  set (messages := [message 10 1 "d"; message 9 1 "c"; message 8 1 "b"]).
  assert (exists page, buildWithPaging ctx (mkPagingParams 2 0) messages = Ok page)
    as [page Hpage] by (eexists; vm_compute; reflexivity).
  exists page. split; [exact Hpage|].
  destruct (buildWithPaging_next ctx (mkPagingParams 2 0) messages page)
    as (oldest & Hlast & _ & _ & Hplain).
  - vm_compute. reflexivity.
  - exact Hpage.
  - vm_compute in Hpage. injection Hpage as <-. vm_compute. discriminate.
  - vm_compute in Hlast. injection Hlast as <-.
    rewrite Hplain by reflexivity. vm_compute. reflexivity.
Defined.

(** * The handlers *)


Ltac unfold_handlers :=
  unfold run, MessageAPI.GetMessages, MessageAPI.GetMessagesWithApplication,
    MessageAPI.DeleteMessages, MessageAPI.DeleteMessageWithApplication,
    MessageAPI.DeleteMessage, MessageAPI.CreateMessage, MessageAPI.deref,
    withID, withPaging, MustBindWith_Query, ctx_Bind, successOrAbort,
    ctx_AbortWithError, ctx_JSON, Notify, lift,
    db_GetMessagesByApplication, db_GetMessagesByApplicationSince,
    db_GetApplicationByID, db_GetMessagesByUser, db_GetMessagesByUserSince,
    db_DeleteMessageByID, db_GetMessageByID, db_DeleteMessagesByUser,
    db_DeleteMessagesByApplication, db_CreateMessage, db_GetApplicationByToken,
    call, emit, bind, ret in *.

(** One call of the repository: name its reply and the state it leaves. *)
Ltac db_step :=
  match goal with
  | |- context [let '(_, _) := ?x in _] =>
      let ms := fresh "reply" in let err := fresh "err" in
      let d := fresh "d" in let E := fresh "Hcall" in
      first [ destruct x as [[ms err] d] eqn:E | destruct x as [err d] eqn:E ];
      cbn [fst snd db log world_of app negb]
  end.

Ltac branch :=
  match goal with
  | |- context [match ?x with Some _ => _ | None => _ end] => destruct x eqn:?
  | |- context [match ?x with Ok _ => _ | Panic _ => _ end] => destruct x eqn:?
  | |- context [if ?x then _ else _] => destruct x eqn:?
  end; cbn [fst snd db log world_of app negb].

(** Run a handler symbolically: one goal per path through it. *)
Ltac paths :=
  unfold_handlers; cbn [fst snd db log world_of app negb];
  repeat (first [db_step | branch]).

(** Case analysis on which entry of a log a hypothesis speaks of. *)
Ltac entries :=
  repeat match goal with
    | H : In _ (_ :: _) |- _ => destruct H as [H|H]
    | H : In _ [] |- _ => destruct H
    | H : Called _ _ = Called _ _ |- _ => injection H as <- <-
    | H : Notified _ _ = Called _ _ |- _ => discriminate H
    | H : Responded _ = Called _ _ |- _ => discriminate H
    end.



Section handler_facts.
Context {D : Type} `{!DB.MessageDatabase D}.

(** C6: in each of the three delete operations, when a repository call
    that fetches fails with a storage error, the run answers with the
    internal error 500 carrying it, sends no notification and issues no
    call that changes the repository. *)
Theorem failed_fetch_aborts (d : D) (ctx : Context) (h : Context -> M D unit) :
  In h [MessageAPI.DeleteMessages; MessageAPI.DeleteMessageWithApplication;
        MessageAPI.DeleteMessage] ->
  forall c r e,
    In (Called c r) (log_of (h ctx) d) ->
    is_fetch c = true -> reply_error r = Some e ->
    aborted_untouched (run (h ctx) d) e.
Proof.
  intros Hh c r e. unfold log_of.
  destruct Hh as [<-|[<-|[<-|[]]]]; paths; intros Hin Hfetch Herr; entries;
    simpl in Hfetch, Herr; try discriminate; simplify_eq;
    (split; [reflexivity | split; [reflexivity | repeat constructor]]).
Qed.

(** C5: when persisting the message fails with a storage error, the
    creation answers with the internal error 500 carrying it and sends
    no notification. *)
Theorem failed_persist_is_silent (d : D) (ctx : Context) :
  forall message left e,
    In (Called (CreateMessage message) (Stored left (Some e)))
       (log_of (MessageAPI.CreateMessage ctx) d) ->
    panicked (run (MessageAPI.CreateMessage ctx) d) = false
    /\ responses (log_of (MessageAPI.CreateMessage ctx) d) = [AbortWithError 500 e]
    /\ Forall (fun x => is_notify x = false) (log_of (MessageAPI.CreateMessage ctx) d).
Proof.
  intros message left e. unfold log_of. paths; intros Hin; entries;
    try discriminate; simplify_eq;
    (split; [reflexivity | split; [reflexivity | repeat constructor]]).
Qed.

(** C8: when the token resolves to no application (nil, no error), the
    creation handler dereferences the nil pointer: it panics after the
    lookup, with no response written. *)
Theorem unknown_token_panics (d d' : D) (ctx : Context) (appMessage : model.ApplicationMessage.t) :
  Body ctx = Some appMessage ->
  DB.GetApplicationByToken (TokenID ctx) d = (None, None, d') ->
  run (MessageAPI.CreateMessage ctx) d
  = Panicked "invalid memory address or nil pointer dereference"
      (mkWorld d' [Called (GetApplicationByToken (TokenID ctx)) (App None None)]).
Proof.
  intros Hbody Htoken. unfold_handlers. rewrite Hbody. cbn [db log].
  rewrite Htoken. reflexivity.
Qed.

(** C9: in a successful creation the message handed to the repository
    bears the display name of the resolved application as its title when
    the supplied title is empty or white space only, and the supplied
    title unchanged otherwise. *)
Theorem created_title (d : D) (ctx : Context) (obj : Payload) :
  responses (log_of (MessageAPI.CreateMessage ctx) d) = [JSON 200 obj] ->
  exists appMessage application message stored,
    Body ctx = Some appMessage
    /\ In (Called (GetApplicationByToken (TokenID ctx)) (App (Some application) None))
          (log_of (MessageAPI.CreateMessage ctx) d)
    /\ In (Called (CreateMessage message) (Stored stored None))
          (log_of (MessageAPI.CreateMessage ctx) d)
    /\ model.Message.Title message
       = if whitespace_only (model.ApplicationMessage.Title appMessage)
         then model.Application.Name application
         else model.ApplicationMessage.Title appMessage.
Proof.
  unfold log_of. paths; intros Hresp; try discriminate.
  all: eexists _, _, _, _; (split; [reflexivity|]); (split; [by left|]);
    (split; [right; by left|]); simpl.
  all: match goal with
       | H : String.eqb _ "" = true |- _ =>
           apply String.eqb_eq, TrimSpace_empty_iff in H; simpl in H; by rewrite H
       | H : String.eqb _ "" = false |- _ =>
           apply String.eqb_neq in H; simpl in H;
           destruct (whitespace_only _) eqn:Hw; [|reflexivity];
           by apply TrimSpace_empty_iff in Hw
       end.
Qed.

End handler_facts.

(** Which entry of a short log is a repository delete. *)
Ltac find_delete :=
  let i := fresh "i" in let x := fresh "x" in
  let Hi := fresh "Hi" in let Hdel := fresh "Hdel" in
  intros i x Hi Hdel;
  repeat (destruct i as [|i];
          [ injection Hi as <-; try discriminate Hdel
          | cbn [lookup list_lookup] in Hi ]);
  try discriminate Hi.

Section notify_before_delete.
Context {D : Type} `{!DB.MessageDatabase D}.

(** C4: in each of the three delete operations, every repository delete
    in the log comes after a notification to the acting user, who owns
    the scope, and that notification carries exactly the messages the
    fetch of the scope gave before it. *)
Theorem notify_precedes_delete (d : D) (ctx : Context) :
  (forall i e,
      log_of (MessageAPI.DeleteMessages ctx) d !! i = Some e -> is_delete e = true ->
      (exists err, e = Called (DeleteMessagesByUser (UserID ctx)) (Done err))
      /\ fetched_then_notified (log_of (MessageAPI.DeleteMessages ctx) d) i
           (GetMessagesByUser (UserID ctx)) (UserID ctx))
  /\ (forall id i e,
      Param_id ctx = Some id ->
      log_of (MessageAPI.DeleteMessageWithApplication ctx) d !! i = Some e ->
      is_delete e = true ->
      (exists err, e = Called (DeleteMessagesByApplication id) (Done err))
      /\ owner_resolved (log_of (MessageAPI.DeleteMessageWithApplication ctx) d) i
           id (UserID ctx)
      /\ fetched_then_notified (log_of (MessageAPI.DeleteMessageWithApplication ctx) d) i
           (GetMessagesByApplication id) (UserID ctx))
  /\ (forall id i e,
      Param_id ctx = Some id ->
      log_of (MessageAPI.DeleteMessage ctx) d !! i = Some e ->
      is_delete e = true ->
      (exists err, e = Called (DeleteMessageByID id) (Done err))
      /\ (exists msg,
            log_of (MessageAPI.DeleteMessage ctx) d !! 0%nat
            = Some (Called (GetMessageByID id) (Row (Some msg) None))
            /\ owner_resolved (log_of (MessageAPI.DeleteMessage ctx) d) i
                 (model.Message.ApplicationID msg) (UserID ctx))
      /\ fetched_then_notified (log_of (MessageAPI.DeleteMessage ctx) d) i
           (GetMessageByID id) (UserID ctx)).
Proof.
  unfold log_of. split; [|split].
  - paths; find_delete.
    all: split; [by eexists|].
    all: eexists 0%nat, 1%nat, _, _; repeat split; simpl; (lia || reflexivity).
  - intros id i e Hid. revert i e. paths; simplify_eq; find_delete.
    all: split; [by eexists|].
    all: match goal with H : (_ =? _)%N = true |- _ => apply N.eqb_eq in H end.
    all: split; [exists 0%nat; eexists; repeat split; simpl; (lia || done)|].
    all: eexists 1%nat, 2%nat, _, _; repeat split; simpl; (lia || reflexivity).
  - intros id i e Hid. revert i e. paths; simplify_eq; find_delete.
    all: split; [by eexists|].
    all: match goal with H : (_ =? _)%N = true |- _ => apply N.eqb_eq in H end.
    all: split;
      [eexists; split; [reflexivity|];
       exists 1%nat; eexists; repeat split; simpl; (lia || done)|].
    all: eexists 0%nat, 2%nat, _, _; repeat split; simpl; (lia || reflexivity).
Qed.

End notify_before_delete.


Section ownership.
Context {D : Type} `{!DB.MessageDatabase D}.

(** C3: a request on an application, or a message, of another user is
    answered exactly as a request on one that does not exist: the same
    single 404 response, no notification, no change of the repository. *)
Theorem foreign_is_not_found (d d' : D) (ctx : Context) (foreign missing : uint) :
  (forall application d1 d2,
      DB.GetApplicationByID foreign d = (Some application, None, d1) ->
      model.Application.UserID application <> UserID ctx ->
      DB.GetApplicationByID missing d' = (None, None, d2) ->
      (responses (log_of (MessageAPI.GetMessagesWithApplication
                            (with_Param_id (Some foreign) ctx)) d)
       = responses (log_of (MessageAPI.GetMessagesWithApplication
                              (with_Param_id (Some missing) ctx)) d'))
      /\ (paging_accepted ctx = true ->
          not_found (run (MessageAPI.GetMessagesWithApplication
                            (with_Param_id (Some foreign) ctx)) d)
                    "application does not exist"
          /\ not_found (run (MessageAPI.GetMessagesWithApplication
                               (with_Param_id (Some missing) ctx)) d')
                       "application does not exist")
      /\ not_found (run (MessageAPI.DeleteMessageWithApplication
                           (with_Param_id (Some foreign) ctx)) d)
                   "application does not exists"
      /\ not_found (run (MessageAPI.DeleteMessageWithApplication
                           (with_Param_id (Some missing) ctx)) d')
                   "application does not exists")
  /\ (forall msg application d1 d2 d3,
      DB.GetMessageByID foreign d = (Some msg, None, d1) ->
      DB.GetApplicationByID (model.Message.ApplicationID msg) d1 = (Some application, None, d2) ->
      model.Application.UserID application <> UserID ctx ->
      DB.GetMessageByID missing d' = (None, None, d3) ->
      not_found (run (MessageAPI.DeleteMessage (with_Param_id (Some foreign) ctx)) d)
                "message does not exist"
      /\ not_found (run (MessageAPI.DeleteMessage (with_Param_id (Some missing) ctx)) d')
                   "message does not exist").
Proof.
  split.
  - intros application d1 d2 Hforeign Howner Hmissing.
    apply N.eqb_neq in Howner.
    unfold log_of, not_found, paging_accepted.
    unfold_handlers. cbn [Param_id with_Param_id Query_form UserID db log].
    rewrite Hforeign, Hmissing. cbn [fst snd db log world_of app negb].
    rewrite Howner.
    destruct (Query_form ctx) as [[limit since]|]; cbn [fst snd db log world_of app negb].
    + destruct (valid_paging _); cbn [fst snd db log world_of app negb];
        rewrite ?Hforeign, ?Hmissing; cbn [fst snd db log world_of app negb];
        rewrite ?Howner; repeat split; try discriminate; repeat constructor.
    + repeat split; try discriminate; repeat constructor.
  - intros msg application d1 d2 d3 Hforeign Happ Howner Hmissing.
    apply N.eqb_neq in Howner.
    unfold log_of, not_found. unfold_handlers.
    cbn [Param_id with_Param_id Query_form UserID db log].
    rewrite Hforeign, Hmissing. cbn [fst snd db log world_of app negb].
    rewrite Happ. cbn [fst snd db log world_of app negb]. rewrite Howner.
    repeat split; repeat constructor.
Qed.

End ownership.


Lemma descending_cons a rows :
  descending (a :: rows) = true ->
  Forall (fun b => (model.Message.ID b < model.Message.ID a)%N) rows
  /\ descending rows = true.
Proof.
  revert a. induction rows as [|b rows IH]; intros a H; [by split|].
  cbn [descending] in H. apply andb_prop in H as [Hba Hrest]. apply N.ltb_lt in Hba.
  destruct (IH b Hrest) as [Hall Hdesc]. split; [|done].
  constructor; [done|]. eapply Forall_impl; [exact Hall|]. simpl. intros. lia.
Qed.

Lemma descending_lookup rows i j a b :
  descending rows = true -> (i < j)%nat ->
  rows !! i = Some a -> rows !! j = Some b ->
  (model.Message.ID b < model.Message.ID a)%N.
Proof.
  revert i j. induction rows as [|x rows IH]; intros i j Hdesc Hij Hi Hj; [done|].
  apply descending_cons in Hdesc as [Hall Hdesc].
  destruct j as [|j]; [lia|]. destruct i as [|i].
  - injection Hi as ->. simpl in Hj. rewrite Forall_forall in Hall.
    apply Hall. eapply list_elem_of_lookup_2. exact Hj.
  - simpl in Hi, Hj. eapply (IH i j); eauto. lia.
Qed.

Section paging.
Context {D : Type} `{!DB.MessageDatabase D}.


(** A page served by [GetMessages] is built from what the repository
    gave for [limit + 1]. *)
Lemma GetMessages_served (d : D) (ctx : Context) limit since page :
  1 <= limit <= 200 ->
  responses (log_of (MessageAPI.GetMessages (with_paging limit since ctx)) d)
  = [JSON 200 (PagedPayload page)] ->
  buildWithPaging (with_paging limit since ctx) (mkPagingParams limit since)
    (DB.GetMessagesByUserSince (UserID ctx) (limit + 1) since d).1.1 = Ok page.
Proof.
  intros Hlimit. unfold log_of. unfold_handlers.
  cbn [Query_form with_paging default from_option UserID]. unfold id.
  unfold valid_paging. cbn [Limit Since].
  destruct (Z.leb_spec 1 limit); [|lia]. destruct (Z.leb_spec limit 200); [|lia].
  cbn [andb fst snd db log world_of app negb Limit Since].
  unfold int_add. rewrite int_wrap_small by lia.
  destruct (DB.GetMessagesByUserSince _ _ _ _) as [[rows err] d'].
  cbn [fst snd db log world_of app negb].
  destruct err; cbn [fst snd db log world_of app negb]; [discriminate|].
  destruct (buildWithPaging _ _ _); cbn [fst snd db log world_of app negb responses omap];
    [|discriminate].
  intros [= ->]. reflexivity.
Qed.

(** C2: when the repository answers by its contract and the first page
    carries a next cursor, the page fetched with [since] set to that
    cursor and the same limit holds no message with an identifier at or
    above the cursor and none that was on the first page. *)
Theorem next_page_is_older (d1 d2 : D) (ctx : Context) (limit : int) (since : uint)
  (page1 page2 : model.PagedMessages.t) :
  1 <= limit <= 200 ->
  answers_by_contract d1 (UserID ctx) (limit + 1) since = true ->
  responses (log_of (MessageAPI.GetMessages (with_paging limit since ctx)) d1)
  = [JSON 200 (PagedPayload page1)] ->
  model.Paging.Next (model.PagedMessages.Paging page1) <> "" ->
  let cursor := model.Paging.Since (model.PagedMessages.Paging page1) in
  answers_by_contract d2 (UserID ctx) (limit + 1) cursor = true ->
  responses (log_of (MessageAPI.GetMessages (with_paging limit cursor ctx)) d2)
  = [JSON 200 (PagedPayload page2)] ->
  (forall m, In (Some m) (model.PagedMessages.Messages page2) ->
             (model.MessageExternal.ID m < cursor)%N)
  /\ (forall x, In x (model.PagedMessages.Messages page2) ->
                ~ In x (model.PagedMessages.Messages page1)).
Proof.
  intros Hlimit Hc1 Hr1 Hnext cursor Hc2 Hr2.
  apply GetMessages_served in Hr1; [|done]. apply GetMessages_served in Hr2; [|done].
  unfold answers_by_contract in *.
  set (rows1 := (DB.GetMessagesByUserSince _ _ since d1).1.1) in *.
  set (rows2 := (DB.GetMessagesByUserSince _ _ cursor d2).1.1) in *.
  unfold respects_contract in *.
  apply andb_prop in Hc1 as [Hc1 _]. apply andb_prop in Hc1 as [Hlen1 Hdesc1].
  apply andb_prop in Hc2 as [Hc2 Hbelow2]. apply andb_prop in Hc2 as [Hlen2 _].
  apply Z.leb_le in Hlen1, Hlen2.
  (* the first page is full *)
  destruct (Z.le_gt_cases (len rows1) limit) as [Hfit|Hover].
  { rewrite buildWithPaging_last_page in Hr1 by done.
    injection Hr1 as <-. by simpl in Hnext. }
  destruct (buildWithPaging_full_page (with_paging limit since ctx)
              (mkPagingParams limit since) rows1) as (oldest & Holdest & Hbuild);
    [simpl; lia | simpl; lia |].
  rewrite Hbuild in Hr1. injection Hr1 as <-.
  cbn [model.PagedMessages.Paging model.PagedMessages.Messages model.Paging.Since] in *.
  unfold len in *.
  (* the row looked ahead is older than the cursor, so the cursor is not 0 *)
  destruct (lookup_lt_is_Some_2 rows1 (length rows1 - 1) ltac:(lia)) as [ahead Hahead].
  pose proof (descending_lookup rows1 (length rows1 - 2) (length rows1 - 1) _ _ Hdesc1
                ltac:(lia) Holdest Hahead) as Hpos.
  assert (forall m, In m rows2 -> (model.Message.ID m < cursor)%N) as Hrows2.
  { intros m Hm. apply orb_prop in Hbelow2 as [Hz|Hall].
    - apply N.eqb_eq in Hz. subst cursor. lia.
    - rewrite forallb_forall in Hall. apply N.ltb_lt. by apply Hall. }
  assert (forall m, In (Some m) (model.PagedMessages.Messages page2) ->
                    exists row, In row rows2 /\ m = model.ToExternal row) as Hpage2.
  { intros m Hm.
    destruct (buildWithPaging_inv _ _ _ _ Hr2) as (next2 & since2 & ->).
    cbn [model.PagedMessages.Messages] in Hm.
    apply in_map_iff in Hm as (row & [= <-] & Hrow). exists row. split; [|done].
    unfold kept in Hrow. destruct (_ >? _); [|done].
    apply list_elem_of_In in Hrow. apply list_elem_of_In.
    apply elem_of_take in Hrow as (i & Hi & _).
    eapply list_elem_of_lookup_2. exact Hi. }
  split.
  - intros m Hm. destruct (Hpage2 m Hm) as (row & Hrow & ->). simpl. by apply Hrows2.
  - intros x Hx2 Hx1.
    apply in_map_iff in Hx1 as (row1 & <- & Hrow1).
    destruct (Hpage2 _ Hx2) as (row2 & Hrow2 & Heq).
    apply Hrows2 in Hrow2. apply (f_equal model.MessageExternal.ID) in Heq.
    simpl in Heq. rewrite <- Heq in Hrow2.
    apply list_elem_of_In, list_elem_of_lookup in Hrow1 as [i Hi].
    pose proof (lookup_lt_Some _ _ _ Hi) as Hilen. rewrite length_take in Hilen.
    rewrite lookup_take_lt in Hi by lia.
    destruct (decide (i = length rows1 - 2)%nat) as [->|Hne].
    + rewrite Holdest in Hi. injection Hi as <-. subst cursor. lia.
    + pose proof (descending_lookup rows1 i (length rows1 - 2) _ _ Hdesc1
                    ltac:(lia) Hi Holdest). subst cursor. lia.
Qed.

End paging.

(** * The in-memory repository keeps the contract *)

Section memdb_contract.

Lemma sorted_descending rows : StronglySorted newer rows -> descending rows = true.
Proof.
  induction 1 as [|a rows Hsorted IH Hall]; [done|].
  destruct rows as [|b rows]; [done|].
  change (descending (a :: b :: rows))
    with ((model.Message.ID b <? model.Message.ID a)%N && descending (b :: rows)).
  rewrite IH, andb_true_r.
  apply N.ltb_lt. by inversion Hall.
Qed.

Lemma sorted_filter (f : model.Message.t -> bool) rows :
  StronglySorted newer rows -> StronglySorted newer (List.filter f rows).
Proof.
  induction 1 as [|a rows Hsorted IH Hall]; simpl; [constructor|].
  destruct (f a); [|done]. constructor; [done|].
  rewrite List.Forall_forall in *. intros b Hb. apply Hall.
  by apply List.filter_In in Hb as [Hb _].
Qed.

Lemma sorted_take n rows :
  StronglySorted newer rows -> StronglySorted newer (take n rows).
Proof.
  intros Hsorted. revert n.
  induction Hsorted as [|a rows Hsorted IH Hall]; intros [|n]; simpl; try constructor.
  - apply IH.
  - rewrite List.Forall_forall in *. intros b Hb. apply Hall.
    apply list_elem_of_In. apply list_elem_of_In in Hb.
    apply elem_of_take in Hb as (i & Hi & _). eapply list_elem_of_lookup_2. exact Hi.
Qed.

Lemma insert_desc_In m x rows :
  In x (memdb.insert_desc m rows) <-> x = m \/ In x rows.
Proof.
  induction rows as [|a rows IH]; simpl; [intuition congruence|].
  destruct (_ <? _)%N; simpl; [intuition congruence|]. rewrite IH. intuition congruence.
Qed.

Lemma insert_desc_sorted m rows :
  StronglySorted newer rows ->
  List.Forall (fun x => model.Message.ID x <> model.Message.ID m) rows ->
  StronglySorted newer (memdb.insert_desc m rows).
Proof.
  induction 1 as [|a rows Hsorted IH Hall]; intros Hfresh; simpl.
  { constructor; constructor. }
  inversion Hfresh as [|? ? Ha Hrest]; subst.
  destruct (N.ltb_spec (model.Message.ID a) (model.Message.ID m)) as [Hlt|Hge].
  - constructor; [by constructor|]. constructor; [done|].
    rewrite List.Forall_forall in *. intros b Hb. specialize (Hall b Hb).
    unfold newer in *. lia.
  - constructor; [by apply IH|].
    rewrite List.Forall_forall in *. intros b Hb.
    apply insert_desc_In in Hb as [->|Hb]; [unfold newer; lia | by apply Hall].
Qed.

Lemma newest_first_In x rows : In x (memdb.newest_first rows) <-> In x rows.
Proof.
  induction rows as [|a rows IH]; simpl; [done|].
  rewrite insert_desc_In, IH. intuition congruence.
Qed.

Lemma newest_first_sorted rows :
  List.NoDup (map model.Message.ID rows) -> StronglySorted newer (memdb.newest_first rows).
Proof.
  induction rows as [|a rows IH]; simpl; intros Hnodup; [constructor|].
  inversion Hnodup as [|? ? Hfresh Hrest]; subst.
  apply insert_desc_sorted; [by apply IH|].
  rewrite List.Forall_forall. intros b Hb Heq. apply Hfresh.
  apply (proj1 (newest_first_In _ _)) in Hb. apply in_map_iff. by exists b.
Qed.

Lemma NoDup_filter_ID (f : model.Message.t -> bool) rows :
  List.NoDup (map model.Message.ID rows) ->
  List.NoDup (map model.Message.ID (List.filter f rows)).
Proof.
  induction rows as [|a rows IH]; simpl; intros Hnodup; [constructor|].
  inversion Hnodup as [|? ? Hfresh Hrest]; subst.
  destruct (f a); simpl; [|by apply IH]. constructor; [|by apply IH].
  intros Hin. apply Hfresh. apply in_map_iff in Hin as (b & Heq & Hb).
  apply List.filter_In in Hb as [Hb _]. apply in_map_iff. by exists b.
Qed.

(** The in-memory repository answers the paged fetch of a user by the
    contract, in every state whose messages bear distinct identifiers. *)
Lemma memdb_answers_by_contract (s : memdb.Store) userID limit since :
  0 <= limit ->
  List.NoDup (map model.Message.ID (memdb.messages s)) ->
  answers_by_contract s userID limit since = true.
Proof.
  intros Hlimit Hnodup. unfold answers_by_contract, respects_contract.
  cbn [DB.GetMessagesByUserSince memdb.database]. unfold memdb.rows.
  destruct (memdb.failure _ _); cbn [fst].
  { unfold len. simpl. rewrite orb_true_r, !andb_true_r. apply Z.leb_le. lia. }
  unfold memdb.page.
  set (mine := List.filter (memdb.of_user s userID) (memdb.messages s)).
  set (visible := List.filter _ (memdb.newest_first mine)).
  apply andb_true_intro. split; [apply andb_true_intro; split|].
  - apply Z.leb_le. unfold len. rewrite length_take. lia.
  - apply sorted_descending, sorted_take, sorted_filter, newest_first_sorted.
    by apply NoDup_filter_ID.
  - destruct (N.eqb_spec since 0) as [|Hsince]; [done|]. simpl.
    apply forallb_forall. intros m Hm.
    apply list_elem_of_In, elem_of_take in Hm as (i & Hi & _).
    apply list_elem_of_lookup_2, list_elem_of_In in Hi.
    apply List.filter_In in Hi as [_ Hi].
    destruct (N.eqb_spec since 0); [done|]. exact Hi.
Qed.

End memdb_contract.

(** * The theorems at work on the scenario *)

Lemma next_page_is_older_witness :
  let ctx := request 1 "/message" "" None None in
  exists page1 page2,
    responses (log_of (MessageAPI.GetMessages (with_paging 2 0 ctx)) repository)
    = [JSON 200 (PagedPayload page1)]
    /\ model.Paging.Since (model.PagedMessages.Paging page1) = 9%N
    /\ responses (log_of (MessageAPI.GetMessages (with_paging 2 9 ctx)) repository)
       = [JSON 200 (PagedPayload page2)]
    /\ (forall m, In (Some m) (model.PagedMessages.Messages page2) ->
                  (model.MessageExternal.ID m < 9)%N)
    /\ (forall x, In x (model.PagedMessages.Messages page2) ->
                  ~ In x (model.PagedMessages.Messages page1)).
Proof.
  intros ctx.
  assert (exists page1,
             responses (log_of (MessageAPI.GetMessages (with_paging 2 0 ctx)) repository)
             = [JSON 200 (PagedPayload page1)]) as [page1 H1]
    by (eexists; vm_compute; reflexivity).
  assert (exists page2,
             responses (log_of (MessageAPI.GetMessages (with_paging 2 9 ctx)) repository)
             = [JSON 200 (PagedPayload page2)]) as [page2 H2]
    by (eexists; vm_compute; reflexivity).
  assert (model.Paging.Since (model.PagedMessages.Paging page1) = 9%N) as Hcursor
    by (vm_compute in H1; injection H1 as <-; reflexivity).
  exists page1, page2.
  split; [exact H1|]. split; [exact Hcursor|]. split; [exact H2|].
  rewrite <- Hcursor.
  apply (next_page_is_older repository repository ctx 2 0 page1 page2).
  - lia.
  - vm_compute. reflexivity.
  - exact H1.
  - vm_compute in H1. injection H1 as <-. vm_compute. discriminate.
  - rewrite Hcursor. vm_compute. reflexivity.
  - rewrite Hcursor. exact H2.
Defined.

Lemma foreign_is_not_found_witness :
  let ctx := request 1 "/application" "" None (Some (None, None)) in
  not_found (run (MessageAPI.GetMessagesWithApplication (with_Param_id (Some 2%N) ctx))
                 repository) "application does not exist"
  /\ not_found (run (MessageAPI.GetMessagesWithApplication (with_Param_id (Some 99%N) ctx))
                    repository) "application does not exist"
  /\ not_found (run (MessageAPI.DeleteMessage (with_Param_id (Some 11%N) ctx)) repository)
               "message does not exist"
  /\ not_found (run (MessageAPI.DeleteMessage (with_Param_id (Some 99%N) ctx)) repository)
               "message does not exist".
Proof.
  intros ctx.
  destruct (foreign_is_not_found repository repository ctx 2 99) as [Happ _].
  destruct (foreign_is_not_found repository repository ctx 11 99) as [_ Hmsg].
  destruct (Happ backup repository repository) as (_ & Hget & _);
    [reflexivity | vm_compute; discriminate | reflexivity |].
  destruct (Hmsg (message 11 2 "e") backup repository repository repository) as [Hf Hm];
    [reflexivity | reflexivity | vm_compute; discriminate | reflexivity |].
  destruct (Hget eq_refl) as [Hgf Hgm].
  exact (conj Hgf (conj Hgm (conj Hf Hm))).
Defined.

Lemma notify_precedes_delete_witness :
  let ctx := request 1 "/message/10" "" (Some 10%N) None in
  log_of (MessageAPI.DeleteMessage ctx) repository !! 3%nat
  = Some (Called (DeleteMessageByID 10) (Done None))
  /\ fetched_then_notified (log_of (MessageAPI.DeleteMessage ctx) repository) 3
       (GetMessageByID 10) 1.
Proof.
  intros ctx. split; [reflexivity|].
  destruct (notify_precedes_delete repository ctx) as (_ & _ & Hone).
  destruct (Hone 10%N 3%nat (Called (DeleteMessageByID 10) (Done None)))
    as (_ & _ & Hnotified); [reflexivity | reflexivity | reflexivity |].
  exact Hnotified.
Defined.

Lemma failed_persist_is_silent_witness :
  let ctx := creation 1 "Atoken" "Storm" in
  let d := breaking persist_fails repository in
  responses (log_of (MessageAPI.CreateMessage ctx) d)
  = [AbortWithError 500 "storage error"]
  /\ Forall (fun x => is_notify x = false) (log_of (MessageAPI.CreateMessage ctx) d).
Proof.
  intros ctx d.
  destruct (failed_persist_is_silent d ctx
              (model.Message.mk 0 1 "body" "Storm" 0 [] 0)
              (model.Message.mk 0 1 "body" "Storm" 0 [] 0) "storage error")
    as (_ & Hresponse & Hsilent).
  - right. left. reflexivity.
  - exact (conj Hresponse Hsilent).
Defined.

Lemma failed_fetch_aborts_witness :
  let ctx := request 1 "/message" "" None None in
  aborted_untouched (run (MessageAPI.DeleteMessages ctx) (breaking fetch_fails repository))
    "storage error".
Proof.
  intros ctx.
  apply (failed_fetch_aborts (breaking fetch_fails repository) ctx MessageAPI.DeleteMessages
           ltac:(left; reflexivity) (GetMessagesByUser 1) (Rows [] (Some "storage error"))).
  - left. reflexivity.
  - reflexivity.
  - reflexivity.
Defined.

Lemma unknown_token_panics_witness :
  run (MessageAPI.CreateMessage (creation 1 "nope" "Storm")) repository
  = Panicked "invalid memory address or nil pointer dereference"
      (mkWorld repository [Called (GetApplicationByToken "nope") (App None None)]).
Proof.
  apply (unknown_token_panics repository repository (creation 1 "nope" "Storm")
           (model.ApplicationMessage.mk "body" "Storm" 0 [])).
  - reflexivity.
  - reflexivity.
Defined.

Lemma created_title_witness :
  (exists message stored,
      In (Called (CreateMessage message) (Stored stored None))
         (log_of (MessageAPI.CreateMessage (creation 1 "Atoken" "  ")) repository)
      /\ model.Message.Title message = "Weather Bot")
  /\ (exists message stored,
      In (Called (CreateMessage message) (Stored stored None))
         (log_of (MessageAPI.CreateMessage (creation 1 "Atoken" "Storm")) repository)
      /\ model.Message.Title message = "Storm").
Proof.
  split.
  - destruct (created_title repository (creation 1 "Atoken" "  ")
                (MessagePayload (model.MessageExternal.mk 12 1 "body" "Weather Bot" 0 [] 0)))
      as (appMessage & application & message & stored & Hbody & Happ & Hcreate & Htitle);
      [vm_compute; reflexivity|].
    exists message, stored. split; [exact Hcreate|].
    injection Hbody as <-.
    destruct Happ as [Happ|[Happ|[Happ|[Happ|[]]]]]; try discriminate Happ.
    injection Happ as <-. exact Htitle.
  - destruct (created_title repository (creation 1 "Atoken" "Storm")
                (MessagePayload (model.MessageExternal.mk 12 1 "body" "Storm" 0 [] 0)))
      as (appMessage & application & message & stored & Hbody & Happ & Hcreate & Htitle);
      [vm_compute; reflexivity|].
    exists message, stored. split; [exact Hcreate|].
    injection Hbody as <-. exact Htitle.
Defined.

(** * Further properties of the handlers, the paging and the documentation *)

Section listing.
Context {D : Type} `{!DB.MessageDatabase D}.

(** X1: when the query parameters do not bind or the limit is outside
    1..200, both listing handlers answer with a single 400, return
    normally, and call the repository not once: its state is untouched. *)
Theorem rejected_paging_reaches_nothing (d : D) (ctx : Context) (h : Context -> M D unit) :
  In h [MessageAPI.GetMessages; MessageAPI.GetMessagesWithApplication] ->
  accepted_params ctx = None ->
  run (h ctx) d = Returned tt (mkWorld d (log_of (h ctx) d))
  /\ exists e, log_of (h ctx) d = [Responded (AbortWithError 400 e)].
Proof.
  intros Hh. unfold accepted_params, log_of.
  destruct Hh as [<-|[<-|[]]]; unfold_handlers;
    destruct (Param_id ctx); cbn [fst snd db log world_of app negb];
    destruct (Query_form ctx) as [[limit since]|];
    cbn [fst snd db log world_of app negb];
    try destruct (valid_paging _); cbn [fst snd db log world_of app negb];
    intros Hrej; try discriminate; (split; [reflexivity | by eexists]).
Qed.

(** X2: with accepted parameters, [GetMessages] calls the repository
    exactly once, asking the messages of the acting user below [since] for
    one row more than the limit, the limit being between 1 and 200. *)
Theorem lookahead_row_requested (d : D) (ctx : Context) (params : pagingParams) :
  accepted_params ctx = Some params ->
  1 <= Limit params <= 200
  /\ exists r,
      List.filter is_call (log_of (MessageAPI.GetMessages ctx) d)
      = [Called (GetMessagesByUserSince (UserID ctx) (Limit params + 1) (Since params)) r].
Proof.
  unfold accepted_params, log_of.
  destruct (Query_form ctx) as [[limit since]|] eqn:Hform; [|done].
  destruct (valid_paging _) eqn:Hvalid; [|done]. intros [= <-].
  pose proof Hvalid as Hrange. unfold valid_paging in Hrange.
  apply andb_prop in Hrange as [Hlo Hhi]. apply Z.leb_le in Hlo, Hhi.
  split; [done|]. unfold_handlers. rewrite Hform.
  cbn [fst snd db log world_of app negb Limit Since].
  unfold int, uint in *. rewrite Hvalid.
  cbn [fst snd db log world_of app negb Limit Since] in *.
  unfold int_add. rewrite int_wrap_small by lia.
  repeat (first [db_step | branch]); by eexists.
Qed.

(** X3: the listing handlers only read: whatever the repository and the
    request, their log holds no notification and no call that changes the
    repository. *)
Theorem listing_is_read_only (d : D) (ctx : Context) (h : Context -> M D unit) :
  In h [MessageAPI.GetMessages; MessageAPI.GetMessagesWithApplication] ->
  Forall (fun e => is_notify e = false /\ is_mutation e = false) (log_of (h ctx) d).
Proof.
  intros Hh. unfold log_of.
  destruct Hh as [<-|[<-|[]]]; paths; repeat constructor.
Qed.

(** X4: when a repository call of a listing handler fails, the handler
    does not panic and its only response is the internal error 500
    carrying that failure; no page is served. *)
Theorem listing_storage_error (d : D) (ctx : Context) (h : Context -> M D unit) :
  In h [MessageAPI.GetMessages; MessageAPI.GetMessagesWithApplication] ->
  forall c r e,
    In (Called c r) (log_of (h ctx) d) -> reply_error r = Some e ->
    panicked (run (h ctx) d) = false
    /\ responses (log_of (h ctx) d) = [AbortWithError 500 e].
Proof.
  intros Hh c r e. unfold log_of.
  destruct Hh as [<-|[<-|[]]]; paths; intros Hin Herr; entries;
    simpl in Herr; try discriminate; simplify_eq; by split.
Qed.

(** X5: [GetMessagesWithApplication] fetches the messages of an
    application only after the repository has shown this application to
    exist and to belong to the acting user; it then asks for one row more
    than the accepted limit, below the accepted [since]. *)
Theorem only_owner_lists_application (d : D) (ctx : Context) id limit since r :
  In (Called (GetMessagesByApplicationSince id limit since) r)
     (log_of (MessageAPI.GetMessagesWithApplication ctx) d) ->
  Param_id ctx = Some id
  /\ (exists params,
        accepted_params ctx = Some params
        /\ limit = Limit params + 1 /\ since = Since params)
  /\ exists application,
      log_of (MessageAPI.GetMessagesWithApplication ctx) d !! 0%nat
      = Some (Called (GetApplicationByID id) (App (Some application) None))
      /\ model.Application.UserID application = UserID ctx.
Proof.
  unfold accepted_params, log_of. unfold_handlers.
  destruct (Param_id ctx) as [id'|]; [|by intros [|[]]].
  destruct (Query_form ctx) as [[limit' since']|]; [|by intros [|[]]].
  cbn [fst snd db log world_of app negb Limit Since]. unfold int, uint in *.
  destruct (valid_paging _) eqn:Hvalid; [|by intros [|[]]].
  unfold valid_paging in Hvalid. apply andb_prop in Hvalid as [Hlo Hhi].
  apply Z.leb_le in Hlo, Hhi. cbn [Limit] in Hlo, Hhi.
  cbn [fst snd db log world_of app negb].
  repeat (first [db_step | branch]); intros Hin; entries; try discriminate.
  all: match goal with H : (_ =? _)%N = true |- _ => apply N.eqb_eq in H end.
  all: split; [done|]; split; [|by eexists].
  all: eexists; split; [reflexivity|]; cbn [Limit Since]; split; [|done].
  all: unfold int_add; by rewrite int_wrap_small by lia.
Qed.

End listing.

Section mutations.
Context {D : Type} `{!DB.MessageDatabase D}.

(** X6: whenever a delete handler reaches its repository delete, the run
    holds exactly one notification and exactly one delete; a failing
    delete is answered with the internal error 500 although the
    notification is already out, a successful one writes no response at
    all. *)
Theorem delete_outcome (d : D) (ctx : Context) (h : Context -> M D unit) :
  In h [MessageAPI.DeleteMessages; MessageAPI.DeleteMessageWithApplication;
        MessageAPI.DeleteMessage] ->
  forall e err,
    In e (log_of (h ctx) d) -> delete_error e = Some err ->
    panicked (run (h ctx) d) = false
    /\ length (List.filter is_notify (log_of (h ctx) d)) = 1%nat
    /\ length (List.filter is_delete (log_of (h ctx) d)) = 1%nat
    /\ responses (log_of (h ctx) d)
       = match err with
         | Some failure => [AbortWithError 500 failure]
         | None => []
         end.
Proof.
  intros Hh e err. unfold log_of.
  destruct Hh as [<-|[<-|[<-|[]]]]; paths; intros Hin Herr;
    repeat match goal with
      | H : In _ (_ :: _) |- _ => destruct H as [<-|H]
      | H : In _ [] |- _ => destruct H
      end;
    simpl in Herr; try discriminate; simplify_eq; by repeat split.
Qed.

(** X7: a message whose application the repository does not know can be
    deleted by nobody: [DeleteMessage] answers 404 as for a missing
    message, notifies nobody and deletes nothing. *)
Theorem orphan_message_is_not_found (d d1 d2 : D) (ctx : Context) (id : uint)
  (msg : model.Message.t) :
  DB.GetMessageByID id d = (Some msg, None, d1) ->
  DB.GetApplicationByID (model.Message.ApplicationID msg) d1 = (None, None, d2) ->
  not_found (run (MessageAPI.DeleteMessage (with_Param_id (Some id) ctx)) d)
            "message does not exist".
Proof.
  intros Hmsg Happ. unfold not_found. unfold_handlers.
  cbn [Param_id with_Param_id db log]. rewrite Hmsg.
  cbn [fst snd db log world_of app negb]. rewrite Happ.
  repeat split; repeat constructor.
Qed.

(** X8: a creation answered with 200 made four steps in this order: the
    token lookup, one persist, one notification of the acting user, the
    response; notification and response both carry the message as the
    repository left it after persisting (the pointer it may have filled
    in), the response as its external view. *)
Theorem created_answer (d : D) (ctx : Context) (obj : Payload) :
  responses (log_of (MessageAPI.CreateMessage ctx) d) = [JSON 200 obj] ->
  exists application message stored,
    log_of (MessageAPI.CreateMessage ctx) d
    = [Called (GetApplicationByToken (TokenID ctx)) (App (Some application) None);
       Called (CreateMessage message) (Stored stored None);
       Notified (UserID ctx) (model.OfMessage stored);
       Responded (JSON 200 obj)]
    /\ obj = MessagePayload (model.ToExternal stored).
Proof.
  unfold log_of. paths; intros Hresp; try discriminate.
  all: injection Hresp as <-; by eexists _, _, _.
Qed.

(** X9: a creation with a malformed body answers 400 without a single
    repository call; one whose token lookup fails answers 500 with that
    failure right after the lookup, whatever application came with it. *)
Theorem creation_stops_early (d : D) (ctx : Context) :
  (Body ctx = None ->
   exists e,
     run (MessageAPI.CreateMessage ctx) d
     = Returned tt (mkWorld d [Responded (AbortWithError 400 e)]))
  /\ (forall appMessage application e d',
         Body ctx = Some appMessage ->
         DB.GetApplicationByToken (TokenID ctx) d = (application, Some e, d') ->
         run (MessageAPI.CreateMessage ctx) d
         = Returned tt
             (mkWorld d' [Called (GetApplicationByToken (TokenID ctx))
                            (App application (Some e));
                          Responded (AbortWithError 500 e)])).
Proof.
  split.
  - intros Hbody. unfold_handlers. rewrite Hbody. by eexists.
  - intros appMessage application e d' Hbody Htoken. unfold_handlers.
    rewrite Hbody. cbn [db log]. by rewrite Htoken.
Qed.

(** X10: on every path of [CreateMessage], a notification goes to the
    acting user only, and only after a persist that succeeded, carrying the
    message that persist left. *)
Theorem notified_only_after_persist (d : D) (ctx : Context) i userID event :
  log_of (MessageAPI.CreateMessage ctx) d !! i = Some (Notified userID event) ->
  userID = UserID ctx
  /\ exists j message stored,
      (j < i)%nat
      /\ log_of (MessageAPI.CreateMessage ctx) d !! j
         = Some (Called (CreateMessage message) (Stored stored None))
      /\ event = model.OfMessage stored.
Proof.
  unfold log_of. paths; intros Hi;
    repeat (first [ discriminate Hi
                  | destruct i as [|i]; cbn [lookup list_lookup] in Hi ]).
  all: injection Hi as <- <-; split; [done|].
  all: exists 1%nat; eexists _, _; repeat split; lia.
Qed.

End mutations.

(** [buildWithPaging] on a list over the limit with at least two messages,
    whatever the limit. *)
Lemma buildWithPaging_over_limit ctx paging messages :
  Limit paging < len messages -> 2 <= len messages < 2 ^ 63 ->
  exists oldest,
    messages !! (length messages - 2)%nat = Some oldest /\
    buildWithPaging ctx paging messages
    = Ok (model.PagedMessages.mk
            (model.Paging.mk (len messages - 1) (Limit paging)
               (next_url ctx (Limit paging) (model.Message.ID oldest))
               (model.Message.ID oldest))
            (map external (take (length messages - 1) messages))).
Proof.
  intros Hover Hlen. unfold len in *.
  destruct (lookup_lt_is_Some_2 messages (length messages - 2) ltac:(lia))
    as [oldest Holdest].
  exists oldest. split; [done|]. unfold buildWithPaging, len.
  destruct (Z.gtb_spec (Z.of_nat (length messages)) (Limit paging)) as [_|]; [|lia].
  unfold int_sub. rewrite int_wrap_small by lia.
  unfold slice_to, len.
  destruct (Z.ltb_spec (Z.of_nat (length messages) - 1) 0) as [|_]; [lia|].
  destruct (Z.ltb_spec (Z.of_nat (length messages)) (Z.of_nat (length messages) - 1)) as [|_];
    [lia|].
  cbn [orb result_bind]. rewrite length_take.
  rewrite int_wrap_small by lia. unfold index.
  replace (Z.to_nat (Z.of_nat (length messages) - 1)) with (length messages - 1)%nat by lia.
  replace (Z.of_nat ((length messages - 1) `min` length messages) - 1)
    with (Z.of_nat (length messages - 2)) by lia.
  destruct (Z.ltb_spec (Z.of_nat (length messages - 2)) 0) as [|_]; [lia|].
  rewrite Nat2Z.id, lookup_take_lt by lia. rewrite Holdest.
  cbn [result_bind]. rewrite toExternalMessages_map. cbn [result_bind].
  unfold next_url, url.Query, len. rewrite length_take.
  cbn [url.Scheme url.Host url.Path url.RawQuery].
  do 3 f_equal. lia.
Qed.

(** X11: [buildWithPaging] panics exactly when the list is longer than
    the limit and holds at most one message, that is for a limit below 1:
    slicing an empty list to -1, or indexing the empty kept list. *)
Theorem buildWithPaging_panics_iff ctx paging messages :
  len messages < 2 ^ 63 ->
  (exists reason, buildWithPaging ctx paging messages = Panic reason)
  <-> Limit paging < len messages <= 1.
Proof.
  intros Hlen. split.
  - intros [reason Hpanic].
    destruct (Z.le_gt_cases (len messages) (Limit paging)) as [Hfit|Hover].
    { rewrite buildWithPaging_last_page in Hpanic by done. discriminate. }
    destruct (Z.le_gt_cases (len messages) 1) as [|Hmany]; [lia|].
    destruct (buildWithPaging_over_limit ctx paging messages) as (oldest & _ & Hok);
      [lia | lia |]. rewrite Hok in Hpanic. discriminate.
  - intros [Hover Hfew]. unfold buildWithPaging.
    destruct (Z.gtb_spec (len messages) (Limit paging)) as [_|]; [|lia].
    destruct messages as [|m [|m' messages]].
    + by eexists.
    + by eexists.
    + unfold len in Hfew. simpl in Hfew. lia.
Qed.

(** X12: a page without a next URL is complete: it holds every message
    passed in, in order, its size is their number, its [since] is 0
    whatever the request said, and the list fitted the limit. *)
Theorem page_without_next_is_complete ctx paging messages page :
  buildWithPaging ctx paging messages = Ok page ->
  model.Paging.Next (model.PagedMessages.Paging page) = "" ->
  model.PagedMessages.Messages page = map external messages
  /\ model.Paging.Size (model.PagedMessages.Paging page) = len messages
  /\ model.Paging.Since (model.PagedMessages.Paging page) = 0%N
  /\ len messages <= Limit paging.
Proof.
  unfold buildWithPaging.
  destruct (Z.gtb_spec (len messages) (Limit paging)) as [Hover|Hfit].
  - destruct (slice_to _ _) as [useMessages|]; [|done]. cbn [result_bind].
    destruct (index _ _) as [oldest|]; [|done]. cbn [result_bind].
    rewrite toExternalMessages_map. cbn [result_bind].
    intros [= <-]. cbn [model.PagedMessages.Paging model.Paging.Next].
    intros Hnext. exfalso. revert Hnext. apply String_nonempty.
    cbn [url.RawQuery]. apply Encode_Add_nonempty.
  - cbn [result_bind]. rewrite toExternalMessages_map. cbn [result_bind].
    intros [= <-] _. by repeat split.
Qed.

(** X13: on a full page built from rows in strictly descending order of
    identifier, the cursor is the smallest identifier on the page, is borne
    by a message of the page, and is above the identifier of the row that
    was dropped: the dropped row is the first the next page may show. *)
Theorem cursor_bounds_page ctx paging rows :
  descending rows = true ->
  1 <= Limit paging -> Limit paging < len rows < 2 ^ 63 ->
  exists page ahead,
    buildWithPaging ctx paging rows = Ok page
    /\ last rows = Some ahead
    /\ (model.Message.ID ahead < model.Paging.Since (model.PagedMessages.Paging page))%N
    /\ (exists m, In (Some m) (model.PagedMessages.Messages page)
                  /\ model.MessageExternal.ID m
                     = model.Paging.Since (model.PagedMessages.Paging page))
    /\ forall m, In (Some m) (model.PagedMessages.Messages page) ->
                 (model.Paging.Since (model.PagedMessages.Paging page)
                  <= model.MessageExternal.ID m)%N.
Proof.
  intros Hdesc Hlimit Hlen. unfold len in *.
  destruct (buildWithPaging_over_limit ctx paging rows) as (oldest & Holdest & Hbuild);
    [unfold len; lia | unfold len; lia |].
  destruct (lookup_lt_is_Some_2 rows (length rows - 1) ltac:(lia)) as [ahead Hahead].
  eexists _, ahead. split; [exact Hbuild|].
  cbn [model.PagedMessages.Paging model.PagedMessages.Messages model.Paging.Since].
  split; [by rewrite last_lookup; replace (pred (length rows)) with (length rows - 1)%nat by lia|].
  split.
  { apply (descending_lookup rows (length rows - 2) (length rows - 1)); [done|lia|done..]. }
  split.
  { exists (model.ToExternal oldest). split; [|reflexivity].
    apply (in_map external). apply list_elem_of_In.
    apply (list_elem_of_lookup_2 _ (length rows - 2)). rewrite lookup_take_lt by lia. done. }
  intros m Hm. apply in_map_iff in Hm as (row & [= <-] & Hrow).
  apply list_elem_of_In, list_elem_of_lookup in Hrow as [i Hi].
  pose proof (lookup_lt_Some _ _ _ Hi) as Hilen. rewrite length_take in Hilen.
  rewrite lookup_take_lt in Hi by lia. simpl.
  destruct (decide (i = length rows - 2)%nat) as [->|Hne].
  - rewrite Holdest in Hi. injection Hi as <-. lia.
  - pose proof (descending_lookup rows i (length rows - 2) _ _ Hdesc ltac:(lia) Hi Holdest).
    lia.
Qed.

Lemma kept_within_limit paging rows :
  0 <= Limit paging -> len rows <= Limit paging + 1 -> Limit paging < 2 ^ 62 ->
  len (kept paging rows) <= Limit paging.
Proof.
  intros Hpos Hrows Hsmall. unfold kept.
  destruct (Z.gtb_spec (len rows) (Limit paging)) as [Hover|Hfit]; [|done].
  unfold int_sub. rewrite int_wrap_small by (unfold len in *; lia).
  unfold len in *. rewrite length_take. lia.
Qed.

Section served.
Context {D : Type} `{!DB.MessageDatabase D}.

(** X14: when the repository gives at most one row more than it was
    asked the limit for, a page served by a listing handler holds at most
    [limit] messages, [limit] being the accepted one (at most 200) and
    echoed in the page. *)
Theorem served_page_within_limit (d : D) (ctx : Context) (h : Context -> M D unit)
  (params : pagingParams) (page : model.PagedMessages.t) :
  In h [MessageAPI.GetMessages; MessageAPI.GetMessagesWithApplication] ->
  accepted_params ctx = Some params ->
  responses (log_of (h ctx) d) = [JSON 200 (PagedPayload page)] ->
  (forall c rows err, In (Called c (Rows rows err)) (log_of (h ctx) d) ->
                      len rows <= Limit params + 1) ->
  len (model.PagedMessages.Messages page) <= Limit params
  /\ Limit params <= 200
  /\ model.Paging.Limit (model.PagedMessages.Paging page) = Limit params.
Proof.
  intros Hh. unfold accepted_params.
  destruct (Query_form ctx) as [[limit since]|] eqn:Hform; [|done].
  destruct (valid_paging _) eqn:Hvalid; [|done]. intros [= <-].
  pose proof Hvalid as Hrange. unfold valid_paging in Hrange.
  apply andb_prop in Hrange as [Hlo Hhi]. apply Z.leb_le in Hlo, Hhi.
  set (params := mkPagingParams _ _) in *.
  assert (forall rows, len rows <= Limit params + 1 ->
            buildWithPaging ctx params rows = Ok page ->
            len (model.PagedMessages.Messages page) <= Limit params
            /\ Limit params <= 200
            /\ model.Paging.Limit (model.PagedMessages.Paging page) = Limit params)
    as Hbuilt.
  { intros rows Hrows Hpage.
    destruct (buildWithPaging_inv _ _ _ _ Hpage) as (next & cursor & ->).
    cbn [model.PagedMessages.Paging model.PagedMessages.Messages model.Paging.Limit].
    split; [|by split]. unfold len at 1. rewrite length_map.
    apply kept_within_limit; lia. }
  unfold log_of.
  destruct Hh as [<-|[<-|[]]]; unfold_handlers; rewrite Hform;
    cbn [fst snd db log world_of app negb Limit Since];
    unfold int, uint in *; fold params; rewrite Hvalid;
    cbn [fst snd db log world_of app negb];
    repeat (first [db_step | branch]); intros Hresp Hrows; try discriminate.
  all: injection Hresp as <-.
  all: eapply Hbuilt; [|eassumption].
  all: eapply Hrows; cbn [In]; eauto.
Qed.

End served.

Lemma HasPrefix_app old post : docs.HasPrefix (old +:+ post) old = true.
Proof.
  induction old as [|c old IH]; [done|]. rewrite append_cons. simpl.
  by rewrite Ascii.eqb_refl, IH.
Qed.

Lemma Index_bounds s old : -1 <= docs.Index s old <= Z.of_nat (String.length s).
Proof.
  induction s as [|c s IH]; simpl.
  - destruct (docs.HasPrefix "" old); lia.
  - destruct (docs.HasPrefix _ _); [lia|]. destruct (Z.eqb_spec (docs.Index s old) (-1)); lia.
Qed.

Lemma Index_unfold s old :
  docs.Index s old
  = if docs.HasPrefix s old then 0
    else match s with
         | EmptyString => -1
         | String _ rest =>
             if docs.Index rest old =? -1 then -1 else docs.Index rest old + 1
         end.
Proof. by destruct s. Qed.

(** [Index] finds the occurrence in front of which there is no other. *)
Lemma Index_first pre old post :
  (forall j, (j < String.length pre)%nat ->
             docs.HasPrefix (str_drop j (pre +:+ old +:+ post)) old = false) ->
  docs.Index (pre +:+ old +:+ post) old = Z.of_nat (String.length pre).
Proof.
  induction pre as [|c pre IH]; intros Hfirst.
  - change ("" +:+ old +:+ post) with (old +:+ post).
    by rewrite Index_unfold, HasPrefix_app.
  - pose proof (Hfirst 0%nat ltac:(simpl; lia)) as Hhere. cbn [str_drop] in Hhere.
    rewrite Index_unfold, Hhere, append_cons, IH.
    + destruct (Z.eqb_spec (Z.of_nat (String.length pre)) (-1)); [lia|].
      simpl String.length. lia.
    + intros j Hj. specialize (Hfirst (S j)). rewrite append_cons in Hfirst.
      apply Hfirst. simpl. lia.
Qed.

Lemma Index_none s old :
  (forall j, (j <= String.length s)%nat -> docs.HasPrefix (str_drop j s) old = false) ->
  docs.Index s old = -1.
Proof.
  induction s as [|c s IH]; intros Hnone.
  - pose proof (Hnone 0%nat ltac:(lia)) as Hhere. cbn [str_drop] in Hhere.
    by rewrite Index_unfold, Hhere.
  - pose proof (Hnone 0%nat ltac:(lia)) as Hhere. cbn [str_drop] in Hhere.
    rewrite Index_unfold, Hhere.
    rewrite IH; [done|]. intros j Hj. apply (Hnone (S j)). simpl. lia.
Qed.

Lemma Count_loop_ge rounds s old n : n <= docs.Count_loop rounds s old n.
Proof.
  revert s n. induction rounds as [|rounds IH]; intros s n; simpl; [lia|].
  destruct (_ =? -1); [lia|]. specialize (IH (str_slice s (docs.Index s old + docs.strlen old)
                                                (docs.strlen s)) (n + 1)). lia.
Qed.

Lemma append_assoc_string a b c : (a +:+ b) +:+ c = a +:+ b +:+ c.
Proof. induction a as [|x a IH]; [done|]. rewrite !append_cons. by rewrite IH. Qed.

(** One replacement, at the first occurrence. *)
Lemma Replace_first s old new i :
  old <> "" -> old <> new -> docs.Index s old = Z.of_nat i ->
  docs.Replace s old new 1
  = str_take i s +:+ new +:+ str_drop (i + String.length old) s.
Proof.
  intros Hold Hnew Hfound.
  assert (0 < docs.strlen old) as Hlen
    by (destruct old; [done | unfold docs.strlen; simpl; lia]).
  unfold docs.Replace.
  destruct (String.eqb_spec old new) as [|_]; [done|]. cbn [orb Z.eqb].
  assert (1 <= docs.Count s old) as Hcount.
  { unfold docs.Count. destruct (Z.eqb_spec (docs.strlen old) 0) as [|_]; [lia|].
    cbn [docs.Count_loop]. rewrite Hfound.
    destruct (Z.eqb_spec (Z.of_nat i) (-1)) as [|_]; [lia|].
    apply (Count_loop_ge _ _ _ (0 + 1)). }
  destruct (Z.eqb_spec (docs.Count s old) 0) as [|_]; [lia|].
  destruct (Z.ltb_spec (docs.Count s old) 1) as [|_]; [lia|].
  cbn [Z.ltb Z.compare orb]. change (Z.to_nat 1) with 1%nat.
  cbn [docs.Replace_loop].
  destruct (Z.eqb_spec (docs.strlen old) 0) as [|_]; [lia|].
  assert (str_slice s 0 (docs.strlen s) = s) as Hwhole.
  { rewrite str_slice_prefix. apply str_take_all. unfold docs.strlen. lia. }
  rewrite Hwhole, Hfound.
  unfold docs.strlen. rewrite str_slice_suffix, str_slice_prefix.
  replace (Z.to_nat (0 + Z.of_nat i)) with i by lia.
  replace (Z.to_nat (0 + Z.of_nat i + Z.of_nat (String.length old)))
    with (i + String.length old)%nat by lia.
  change ("" +:+ ?x) with x. by rewrite append_assoc_string.
Qed.

Lemma str_take_length_app pre rest : str_take (String.length pre) (pre +:+ rest) = pre.
Proof. induction pre as [|c pre IH]; [by destruct rest|]. rewrite append_cons. simpl. by rewrite IH. Qed.

Lemma str_drop_length_app pre rest : str_drop (String.length pre) (pre +:+ rest) = rest.
Proof. induction pre as [|c pre IH]; [done|]. rewrite append_cons. simpl. by rewrite IH. Qed.

(** X15: when the documentation holds no [localhost], [Serve] appends it
    to the response unchanged, whatever the host of the request URL. *)
Theorem served_docs_without_localhost box ctx written :
  (forall j, (j <= String.length (box "spec.json"))%nat ->
             docs.HasPrefix (str_drop j (box "spec.json")) "localhost" = false) ->
  docs.Serve box ctx written = written +:+ box "spec.json".
Proof.
  intros Hnone. unfold docs.Serve, docs.get, docs.Replace.
  destruct (_ || _); [done|].
  unfold docs.Count. change (docs.strlen "localhost" =? 0) with false.
  cbn [docs.Count_loop]. by rewrite (Index_none _ _ Hnone).
Qed.

(** X16: [Serve] appends the documentation with its first [localhost]
    replaced by the host of the request URL (removed if that host is
    empty); everything before and after it, later occurrences included, is
    written as it stands. *)
Theorem served_docs_first_localhost box ctx written pre post :
  box "spec.json" = pre +:+ "localhost" +:+ post ->
  (forall j, (j < String.length pre)%nat ->
             docs.HasPrefix (str_drop j (pre +:+ "localhost" +:+ post)) "localhost" = false) ->
  docs.Serve box ctx written
  = written +:+ pre +:+ url.Host (Request_URL ctx) +:+ post.
Proof.
  intros Hspec Hfirst. unfold docs.Serve, docs.get. rewrite Hspec. f_equal.
  destruct (String.eqb_spec "localhost" (url.Host (Request_URL ctx))) as [<-|Hhost].
  { unfold docs.Replace. by rewrite String.eqb_refl. }
  rewrite (Replace_first _ _ _ (String.length pre)); [|done|done|by apply Index_first].
  rewrite str_take_length_app.
  rewrite <- (str_drop_drop (String.length "localhost") (String.length pre)).
  rewrite str_drop_length_app. by rewrite (str_drop_length_app "localhost" post).
Qed.

Lemma query_safe_digits d : query_safe (NilEmpty.string_of_uint d) = true.
Proof. induction d; simpl; [done|..]; exact IHd. Qed.

Lemma query_safe_FormatUint u : query_safe (FormatUint u) = true.
Proof.
  unfold FormatUint, NilZero.string_of_uint.
  destruct (N.to_uint u); try apply query_safe_digits. done.
Qed.

Lemma query_safe_Itoa i : query_safe (Itoa i) = true.
Proof.
  unfold Itoa, NilZero.string_of_int, NilZero.string_of_uint.
  destruct (Z.to_int i) as [d|d]; destruct d; try apply query_safe_digits; try done;
    apply (query_safe_digits (_ _)).
Qed.

Lemma query_safe_cons c s :
  query_safe (String c s) = true ->
  negb (url.one_of c "&;=%+") = true /\ query_safe s = true.
Proof. unfold query_safe. simpl. intros H. by apply andb_prop in H. Qed.

Lemma append_empty_r s : s +:+ "" = s.
Proof. induction s as [|c s IH]; [done|]. rewrite append_cons. by rewrite IH. Qed.

Lemma segments_safe t rest cur :
  query_safe t = true ->
  url.segments (t +:+ "&" +:+ rest) cur = (cur +:+ t) :: url.segments rest "".
Proof.
  revert cur. induction t as [|c t IH]; intros cur Hsafe.
  - change ("" +:+ "&" +:+ rest) with (String "&" rest). simpl.
    by rewrite append_empty_r.
  - apply query_safe_cons in Hsafe as [Hc Ht]. rewrite append_cons. cbn [url.segments].
    destruct (Ascii.eqb_spec c "&") as [->|_]; [vm_compute in Hc; discriminate|].
    rewrite IH by done. by rewrite append_assoc_string.
Qed.

Lemma segments_safe_end t cur :
  query_safe t = true -> url.segments t cur = [cur +:+ t].
Proof.
  revert cur. induction t as [|c t IH]; intros cur Hsafe.
  - simpl. by rewrite append_empty_r.
  - apply query_safe_cons in Hsafe as [Hc Ht]. cbn [url.segments].
    destruct (Ascii.eqb_spec c "&") as [->|_]; [vm_compute in Hc; discriminate|].
    rewrite IH by done. by rewrite append_assoc_string.
Qed.

Lemma one_of_semicolon_safe t : query_safe t = true -> url.one_of ";" t = false.
Proof.
  induction t as [|c t IH]; intros Hsafe; [done|].
  apply query_safe_cons in Hsafe as [Hc Ht]. unfold url.one_of in *.
  cbn [list_ascii_of_string existsb].
  rewrite IH by done. destruct (Ascii.eqb_spec ";" c) as [<-|_]; [|done].
  vm_compute in Hc. discriminate.
Qed.

Lemma QueryUnescape_safe t : query_safe t = true -> url.QueryUnescape t = Some t.
Proof.
  induction t as [|c t IH]; intros Hsafe; [done|].
  apply query_safe_cons in Hsafe as [Hc Ht]. specialize (IH Ht).
  destruct c as [[] [] [] [] [] [] [] []]; try discriminate Hc;
    cbn [url.QueryUnescape]; rewrite IH; reflexivity.
Qed.

Lemma one_of_semicolon_app a b :
  url.one_of ";" (a +:+ b) = url.one_of ";" a || url.one_of ";" b.
Proof.
  unfold url.one_of. induction a as [|c a IH]; [done|]. rewrite append_cons.
  cbn [list_ascii_of_string existsb]. by rewrite IH, orb_assoc.
Qed.

Lemma Cut_safe key value :
  query_safe key = true -> url.Cut (key +:+ "=" +:+ value) "=" = (key, value, true).
Proof.
  induction key as [|c key IH]; intros Hsafe; [done|].
  apply query_safe_cons in Hsafe as [Hc Hkey]. rewrite append_cons. cbn [url.Cut].
  destruct (Ascii.eqb_spec c "=") as [->|_]; [vm_compute in Hc; discriminate|].
  by rewrite IH.
Qed.

(** A pair made of plain bytes is read as it stands. *)
Lemma parsePair_safe m key value :
  key <> "" -> query_safe key = true -> query_safe value = true ->
  url.parsePair m (key +:+ "=" +:+ value) = url.Add m key value.
Proof.
  intros Hne Hkey Hvalue. unfold url.parsePair.
  rewrite !one_of_semicolon_app.
  rewrite (one_of_semicolon_safe key), (one_of_semicolon_safe value) by done.
  change (url.one_of ";" "=") with false. cbn [orb].
  destruct (String.eqb_spec (key +:+ "=" +:+ value) "") as [Hempty|_].
  { destruct key; [done|]. by rewrite append_cons in Hempty. }
  rewrite Cut_safe by done. cbv beta iota.
  rewrite !QueryUnescape_safe by done. reflexivity.
Qed.

(** The two parameters of a next-page query parse back. *)
Lemma ParseQuery_limit_since l s :
  query_safe l = true -> query_safe s = true ->
  url.ParseQuery ("limit=" +:+ l +:+ "&since=" +:+ s)
  = [("limit", [l]); ("since", [s])].
Proof.
  intros Hl Hs. unfold url.ParseQuery.
  change ("limit=" +:+ l +:+ "&since=" +:+ s)
    with (String "l" (String "i" (String "m" (String "i" (String "t" (String "="
            (l +:+ "&" +:+ "since=" +:+ s))))))).
  cbn [url.segments Ascii.eqb Bool.eqb]. rewrite segments_safe by done.
  change ("since=" +:+ s)
    with (String "s" (String "i" (String "n" (String "c" (String "e" (String "=" s)))))).
  cbn [url.segments Ascii.eqb Bool.eqb]. rewrite segments_safe_end by done.
  cbn [fold_left].
  change (((((("" +:+ "l") +:+ "i") +:+ "m") +:+ "i") +:+ "t") +:+ "=") with "limit=".
  change (((((("" +:+ "s") +:+ "i") +:+ "n") +:+ "c") +:+ "e") +:+ "=") with "since=".
  change ("limit=" +:+ l) with ("limit" +:+ "=" +:+ l).
  change ("since=" +:+ s) with ("since" +:+ "=" +:+ s).
  rewrite !parsePair_safe by done. reflexivity.
Qed.

(** X17: the query [buildWithPaging] encodes on a location without query
    parses back to exactly the two parameters, [limit] with the decimal
    limit and [since] with the decimal cursor. *)
Theorem next_query_round_trip (limit : int) (since : uint) :
  url.ParseQuery
    (url.Encode (url.Add (url.Add (url.ParseQuery "") "limit" (Itoa limit))
                         "since" (FormatUint since)))
  = [("limit", [Itoa limit]); ("since", [FormatUint since])].
Proof.
  rewrite next_query_plain.
  apply ParseQuery_limit_since; [apply query_safe_Itoa | apply query_safe_FormatUint].
Qed.

Section panics.
Context {D : Type} `{!DB.MessageDatabase D}.

(** X18: the listing handlers never panic, the request being accepted or
    not: validation keeps the limit at 1 or more, so [buildWithPaging]
    never slices or indexes out of range (a list being shorter than 2^63
    as every slice is). *)
Theorem listing_never_panics (d : D) (ctx : Context) (h : Context -> M D unit) :
  In h [MessageAPI.GetMessages; MessageAPI.GetMessagesWithApplication] ->
  (forall c rows err, In (Called c (Rows rows err)) (log_of (h ctx) d) ->
                      len rows < 2 ^ 63) ->
  panicked (run (h ctx) d) = false.
Proof.
  intros Hh. unfold log_of.
  destruct Hh as [<-|[<-|[]]]; paths; intros Hrows; try reflexivity; exfalso.
  all: match goal with
       | Hvalid : valid_paging ?p = true, Hpanic : buildWithPaging ?c ?p ?rows = Panic _ |- _ =>
           unfold valid_paging in Hvalid; apply andb_prop in Hvalid as [Hlo _];
           apply Z.leb_le in Hlo;
           destruct (buildWithPaging_returns c p rows Hlo) as [page Hpage];
           [eapply Hrows; cbn [In]; eauto | congruence]
       end.
Qed.

(** X19: [CreateMessage] panics exactly when the body binds and the
    token lookup gives no application and no error; no other reply of the
    repository makes it panic. *)
Theorem creation_panics_iff (d : D) (ctx : Context) :
  panicked (run (MessageAPI.CreateMessage ctx) d) = true
  <-> exists appMessage d',
        Body ctx = Some appMessage
        /\ DB.GetApplicationByToken (TokenID ctx) d = (None, None, d').
Proof.
  split.
  - paths; intros Hpanic; try discriminate. simplify_eq. by eexists _, _.
  - intros (appMessage & d' & Hbody & Htoken). unfold_handlers.
    rewrite Hbody. cbn [db log]. by rewrite Htoken.
Qed.

End panics.

(** * The further properties at work on the scenario *)

Lemma rejected_paging_reaches_nothing_witness :
  let ctx := request 1 "/message" "limit=0" None (Some (Some 0, None)) in
  run (MessageAPI.GetMessages ctx) repository
  = Returned tt (mkWorld repository (log_of (MessageAPI.GetMessages ctx) repository))
  /\ exists e,
      log_of (MessageAPI.GetMessages ctx) repository = [Responded (AbortWithError 400 e)].
Proof.
  intros ctx.
  apply (rejected_paging_reaches_nothing repository ctx MessageAPI.GetMessages).
  - left. reflexivity.
  - reflexivity.
Defined.

Lemma lookahead_row_requested_witness :
  let ctx := request 1 "/message" "" None (Some (None, None)) in
  exists r,
    List.filter is_call (log_of (MessageAPI.GetMessages ctx) repository)
    = [Called (GetMessagesByUserSince 1 101 0) r].
Proof.
  intros ctx.
  destruct (lookahead_row_requested repository ctx (mkPagingParams 100 0)) as [_ Hcall].
  - reflexivity.
  - exact Hcall.
Defined.

Lemma listing_is_read_only_witness :
  let ctx := request 1 "/application/1/message" "" (Some 1%N) (Some (Some 2, None)) in
  Forall (fun e => is_notify e = false /\ is_mutation e = false)
         (log_of (MessageAPI.GetMessagesWithApplication ctx) repository).
Proof.
  intros ctx.
  apply (listing_is_read_only repository ctx MessageAPI.GetMessagesWithApplication).
  right. left. reflexivity.
Defined.

Lemma listing_storage_error_witness :
  let ctx := request 1 "/message" "" None (Some (None, None)) in
  let d := breaking paged_fetch_fails repository in
  panicked (run (MessageAPI.GetMessages ctx) d) = false
  /\ responses (log_of (MessageAPI.GetMessages ctx) d) = [AbortWithError 500 "storage error"].
Proof.
  intros ctx d.
  apply (listing_storage_error d ctx MessageAPI.GetMessages ltac:(left; reflexivity)
           (GetMessagesByUserSince 1 101 0) (Rows [] (Some "storage error"))).
  - left. reflexivity.
  - reflexivity.
Defined.

Lemma only_owner_lists_application_witness :
  let ctx := request 1 "/application/1/message" "" (Some 1%N) (Some (Some 2, None)) in
  exists application,
    log_of (MessageAPI.GetMessagesWithApplication ctx) repository !! 0%nat
    = Some (Called (GetApplicationByID 1) (App (Some application) None))
    /\ model.Application.UserID application = 1%N.
Proof.
  intros ctx.
  destruct (only_owner_lists_application repository ctx 1 3 0
              (Rows [message 10 1 "d"; message 9 1 "c"; message 8 1 "b"] None))
    as (_ & _ & Howner).
  - right. left. reflexivity.
  - exact Howner.
Defined.

Lemma delete_outcome_witness :
  let ctx := request 1 "/message/10" "" (Some 10%N) None in
  length (List.filter is_notify (log_of (MessageAPI.DeleteMessage ctx) repository)) = 1%nat
  /\ responses (log_of (MessageAPI.DeleteMessage ctx) repository) = [].
Proof.
  intros ctx.
  destruct (delete_outcome repository ctx MessageAPI.DeleteMessage
              ltac:(right; right; left; reflexivity)
              (Called (DeleteMessageByID 10) (Done None)) None)
    as (_ & Hnotify & _ & Hresponse).
  - right. right. right. left. reflexivity.
  - reflexivity.
  - exact (conj Hnotify Hresponse).
Defined.

Lemma orphan_message_is_not_found_witness :
  not_found (run (MessageAPI.DeleteMessage
                    (with_Param_id (Some 20%N) (request 1 "/message/20" "" None None)))
                 orphaned)
            "message does not exist".
Proof.
  apply (orphan_message_is_not_found orphaned orphaned orphaned _ 20 (message 20 5 "x")).
  - reflexivity.
  - reflexivity.
Defined.

Lemma created_answer_witness :
  let obj := MessagePayload (model.ToExternal (message 12 1 "Storm")) in
  exists application message stored,
    log_of (MessageAPI.CreateMessage (creation 1 "Atoken" "Storm")) repository
    = [Called (GetApplicationByToken "Atoken") (App (Some application) None);
       Called (CreateMessage message) (Stored stored None);
       Notified 1 (model.OfMessage stored);
       Responded (JSON 200 obj)]
    /\ obj = MessagePayload (model.ToExternal stored).
Proof.
  intros obj.
  apply (created_answer repository (creation 1 "Atoken" "Storm") obj).
  reflexivity.
Defined.

Lemma creation_stops_early_witness :
  (exists e,
      run (MessageAPI.CreateMessage (request 1 "/message" "" None None)) repository
      = Returned tt (mkWorld repository [Responded (AbortWithError 400 e)]))
  /\ responses (log_of (MessageAPI.CreateMessage (creation 1 "Atoken" "Storm"))
                       (breaking token_lookup_fails repository))
     = [AbortWithError 500 "storage error"].
Proof.
  destruct (creation_stops_early repository (request 1 "/message" "" None None))
    as [Hbody _].
  destruct (creation_stops_early (breaking token_lookup_fails repository)
              (creation 1 "Atoken" "Storm")) as [_ Htoken].
  split.
  - apply Hbody. reflexivity.
  - unfold log_of.
    rewrite (Htoken (model.ApplicationMessage.mk "body" "Storm" 0 []) None "storage error"
               (breaking token_lookup_fails repository) eq_refl eq_refl).
    reflexivity.
Defined.

Lemma notified_only_after_persist_witness :
  exists j message stored,
    (j < 2)%nat
    /\ log_of (MessageAPI.CreateMessage (creation 1 "Atoken" "Storm")) repository !! j
       = Some (Called (CreateMessage message) (Stored stored None))
    /\ model.Message.Title stored = "Storm".
Proof.
  destruct (notified_only_after_persist repository (creation 1 "Atoken" "Storm") 2 1
              (model.OfMessage (model.Message.mk 12 1 "body" "Storm" 0 [] 0)))
    as (_ & j & message & stored & Hj & Hlog & Hevent); [reflexivity|].
  exists j, message, stored. split; [exact Hj|]. split; [exact Hlog|].
  injection Hevent as <-. reflexivity.
Defined.

Lemma buildWithPaging_panics_iff_witness :
  exists reason,
    buildWithPaging (request 1 "/message" "" None None) (mkPagingParams 0 0)
      [message 10 1 "d"] = Panic reason.
Proof.
  apply (buildWithPaging_panics_iff (request 1 "/message" "" None None)
           (mkPagingParams 0 0) [message 10 1 "d"]).
  - vm_compute. reflexivity.
  - vm_compute. split; [reflexivity | discriminate].
Defined.

Lemma page_without_next_is_complete_witness :
  exists page,
    buildWithPaging (request 1 "/message" "" None None) (mkPagingParams 3 9) three = Ok page
    /\ model.PagedMessages.Messages page = map external three
    /\ model.Paging.Since (model.PagedMessages.Paging page) = 0%N.
Proof.
  assert (exists page,
             buildWithPaging (request 1 "/message" "" None None) (mkPagingParams 3 9) three
             = Ok page) as [page Hpage] by (eexists; vm_compute; reflexivity).
  exists page. split; [exact Hpage|].
  destruct (page_without_next_is_complete _ _ _ _ Hpage) as (Hall & _ & Hsince & _).
  - vm_compute in Hpage. injection Hpage as <-. reflexivity.
  - exact (conj Hall Hsince).
Defined.

Lemma cursor_bounds_page_witness :
  exists page ahead,
    buildWithPaging (request 1 "/message" "" None None) (mkPagingParams 2 0) three = Ok page
    /\ last three = Some ahead
    /\ (model.Message.ID ahead < model.Paging.Since (model.PagedMessages.Paging page))%N.
Proof.
  destruct (cursor_bounds_page (request 1 "/message" "" None None) (mkPagingParams 2 0) three)
    as (page & ahead & Hpage & Hlast & Hbelow & _).
  - reflexivity.
  - simpl. lia.
  - vm_compute. split; reflexivity.
  - exists page, ahead. exact (conj Hpage (conj Hlast Hbelow)).
Defined.

Lemma served_page_within_limit_witness :
  let ctx := request 1 "/message" "" None (Some (Some 2, None)) in
  exists page,
    responses (log_of (MessageAPI.GetMessages ctx) repository)
    = [JSON 200 (PagedPayload page)]
    /\ len (model.PagedMessages.Messages page) <= 2.
Proof.
  intros ctx.
  assert (exists page,
             responses (log_of (MessageAPI.GetMessages ctx) repository)
             = [JSON 200 (PagedPayload page)]) as [page Hpage]
    by (eexists; vm_compute; reflexivity).
  exists page. split; [exact Hpage|].
  destruct (served_page_within_limit repository ctx MessageAPI.GetMessages
              (mkPagingParams 2 0) page) as (Hsize & _ & _).
  - left. reflexivity.
  - reflexivity.
  - exact Hpage.
  - intros c rows err Hin. vm_compute in Hin.
    destruct Hin as [Hin|[Hin|[]]]; [|discriminate Hin].
    injection Hin as _ <- _. vm_compute. discriminate.
  - exact Hsize.
Defined.

Lemma served_docs_without_localhost_witness :
  docs.Serve plain_box (request 1 "/docs" "" None None) "" = "{}".
Proof.
  apply (served_docs_without_localhost plain_box (request 1 "/docs" "" None None) "").
  intros j Hj. destruct j as [|[|[|j]]]; try reflexivity; simpl in Hj; lia.
Defined.

Lemma served_docs_first_localhost_witness :
  docs.Serve local_box
    (mkContext 1 "" here (url.mkURL "http" "example.org" "/docs" "") None None None) ""
  = "http://example.org/ localhost".
Proof.
  apply (served_docs_first_localhost local_box
           (mkContext 1 "" here (url.mkURL "http" "example.org" "/docs" "") None None None)
           "" "http://" "/ localhost").
  - reflexivity.
  - intros j Hj. destruct j as [|[|[|[|[|[|[|j]]]]]]]; try reflexivity; simpl in Hj; lia.
Defined.

Lemma listing_never_panics_witness :
  let ctx := request 1 "/message" "" None (Some (Some 2, None)) in
  panicked (run (MessageAPI.GetMessages ctx) repository) = false.
Proof.
  intros ctx.
  apply (listing_never_panics repository ctx MessageAPI.GetMessages).
  - left. reflexivity.
  - intros c rows err Hin. vm_compute in Hin.
    destruct Hin as [Hin|[Hin|[]]]; [|discriminate Hin].
    injection Hin as _ <- _. vm_compute. reflexivity.
Defined.
